(** * CompactSize codec and UTXO registry of [main.py]

    A shallow embedding of the two classes of [src/main.py] that carry a
    contract: [CompactSizeEncoder] / [CompactSizeDecoder] and [UTXOSet].

    - Python integers are unbounded, hence [Z].
    - [bytes] objects are [list byte]; indexing a [bytes] object yields a
      Python integer, obtained here with [byte_to_Z].
    - A raised exception is the [Err] case of [result]; the exception class
      and its message are kept as the source writes them.
    - [UTXOSet] instances and the [set] objects they hold live in a store
      indexed by addresses, so that aliasing between registries is visible.
    - [print] writes to standard output; the text written is not part of
      the model, but formatting an integer is: CPython refuses to convert
      an integer of more than 4300 digits to a string and raises
      [ValueError], so a [print] that formats such an integer raises
      ([str_int]).  [add_utxo], [remove_utxo], [find_sufficient_utxos],
      [summarize_outputs], [get_input_details] and the generator carry
      that check.  [add_input], [add_output], [update_metadata] and
      [set_transaction_header] are given as the state they leave behind:
      their only [print] is their last statement and cannot change it. *)

From Stdlib Require Import ZArith Lia List.
From Stdlib.Strings Require Import Byte.
From stdpp Require Import gmap strings list fin_maps fin_sets.

Local Open Scope Z_scope.

(** ** Exceptions and results *)

Inductive exn : Type :=
  | ValueError (msg : string)
  | OverflowError (msg : string)
  | AttributeError (msg : string)
  | KeyError (msg : string).

Inductive result (A : Type) : Type :=
  | Ok (a : A)
  | Err (e : exn).
Arguments Ok {A} a.
Arguments Err {A} e.

(** Sequencing stops at the first raised exception. *)
#[global] Instance result_ret : MRet result := λ A a, Ok a.
#[global] Instance result_bind : MBind result := λ A B k r,
  match r with
  | Ok a => k a
  | Err e => Err e
  end.

(** ** Python values reaching [encode]

    [encode] is annotated with [int] but tests its argument at run time, so
    the argument is an arbitrary object.  [bool] is a subclass of [int]:
    [isinstance(True, int)] holds and [True] compares and converts as [1]. *)

Inductive PyVal : Type :=
  | PyNone
  | PyBool (b : bool)
  | PyInt (z : Z)
  | PyFloat (mantissa exponent : Z)
  | PyStr (s : string)
  | PyBytes (bs : list byte).

(** The integer carried by an instance of [int], if the object is one. *)
Definition int_value (value : PyVal) : option Z :=
  match value with
  | PyInt z => Some z
  | PyBool b => Some (if b then 1 else 0)
  | _ => None
  end.

(** [isinstance(value, int)] *)
Definition isinstance_int (value : PyVal) : bool :=
  match int_value value with
  | Some _ => true
  | None => false
  end.

(** ** Bytes *)

Definition byte_to_Z (b : byte) : Z := Z.of_N (Byte.to_N b).

(** The byte whose value is [z mod 256]. *)
Definition byte_of_Z (z : Z) : byte :=
  match Byte.of_N (Z.to_N (z mod 256)) with
  | Some b => b
  | None => x00
  end.

(** [bytes([value])]: a one-element [bytes] object; the element must lie in
    [range(0, 256)]. *)
Definition bytes_of_int (value : Z) : result (list byte) :=
  if (0 <=? value) && (value <? 256)
  then Ok [byte_of_Z value]
  else Err (ValueError "bytes must be in range(0, 256)").

(** The [length] low-order base-256 digits of [value], least significant
    first. *)
Fixpoint le_digits (length : nat) (value : Z) : list byte :=
  match length with
  | O => []
  | S n => byte_of_Z value :: le_digits n (value / 256)
  end.

(** [value.to_bytes(length, byteorder='little')] (unsigned). *)
Definition to_bytes (value : Z) (length : nat) : result (list byte) :=
  if value <? 0
  then Err (OverflowError "can't convert negative int to unsigned")
  else if 256 ^ Z.of_nat length <=? value
  then Err (OverflowError "int too big to convert")
  else Ok (le_digits length value).

(** [int.from_bytes(data, byteorder='little')] (unsigned). *)
Fixpoint from_bytes (data : list byte) : Z :=
  match data with
  | [] => 0
  | b :: rest => byte_to_Z b + 256 * from_bytes rest
  end.

(** [data[i:j]] for non-negative [i], [j]: slicing clamps to the length. *)
Definition slice {A : Type} (data : list A) (i j : nat) : list A :=
  firstn (j - i) (skipn i data).

(** ** [CompactSizeEncoder.encode] *)

Definition encode (value : PyVal) : result (list byte) :=
  match int_value value with
  | None => Err (ValueError "Value must be an integer.")
  | Some v =>
      if negb ((0 <=? v) && (v <=? 0xFFFFFFFFFFFFFFFF))
      then Err (ValueError
                  "Value must be a non-negative integer and fit within u64.")
      else if v <? 0xFD then bytes_of_int v
      else if v <=? 0xFFFF then
        (tail ← to_bytes v 2 ; Ok (xfd :: tail))
      else if v <=? 0xFFFFFFFF then
        (tail ← to_bytes v 4 ; Ok (xfe :: tail))
      else
        (tail ← to_bytes v 8 ; Ok (xff :: tail))
  end.

(** ** [CompactSizeDecoder.decode] *)

Definition decode (data : list byte) : result (Z * Z) :=
  match data with
  | [] => Err (ValueError "Data is too short.")
  | b0 :: _ =>
      let first_byte := byte_to_Z b0 in
      if first_byte <? 0xFD then Ok (first_byte, 1)
      else if first_byte =? 0xFD then
        if Z.of_nat (length data) <? 3
        then Err (ValueError "Data too short.")
        else Ok (from_bytes (slice data 1 3), 3)
      else if first_byte =? 0xFE then
        if Z.of_nat (length data) <? 5
        then Err (ValueError "Data too short.")
        else Ok (from_bytes (slice data 1 5), 5)
      else if first_byte =? 0xFF then
        if Z.of_nat (length data) <? 9
        then Err (ValueError "Data too short.")
        else Ok (from_bytes (slice data 1 9), 9)
      else Err (ValueError "Data is too short.")
  end.

(** The two error kinds of the codec.  The source raises [ValueError] for
    both; they are told apart by the raising function and its messages. *)
Definition InvalidValue (e : exn) : Prop :=
  e = ValueError "Value must be an integer." ∨
  e = ValueError "Value must be a non-negative integer and fit within u64.".

Definition TooShort (e : exn) : Prop :=
  e = ValueError "Data is too short." ∨ e = ValueError "Data too short.".

(** Number of bytes a tag value announces for the whole encoding. *)
Definition tag_length (t : Z) : Z :=
  if t =? 0xFD then 3 else if t =? 0xFE then 5 else if t =? 0xFF then 9 else 1.

Definition declared_length (b0 : byte) : Z := tag_length (byte_to_Z b0).

(** The branches of [decode] below [first_byte = data[0]], as a function of
    the tag; [decode (b0 :: rest)] unfolds to it (lemma [decode_cons]). *)
Definition decode_tagged (t : Z) (data : list byte) : result (Z * Z) :=
  if t <? 0xFD then Ok (t, 1)
  else if t =? 0xFD then
    if Z.of_nat (length data) <? 3
    then Err (ValueError "Data too short.")
    else Ok (from_bytes (slice data 1 3), 3)
  else if t =? 0xFE then
    if Z.of_nat (length data) <? 5
    then Err (ValueError "Data too short.")
    else Ok (from_bytes (slice data 1 5), 5)
  else if t =? 0xFF then
    if Z.of_nat (length data) <? 9
    then Err (ValueError "Data too short.")
    else Ok (from_bytes (slice data 1 9), 9)
  else Err (ValueError "Data is too short.").

(** [bs] is the [n]-byte little-endian layout of [v]: byte [i] is the
    [i]-th base-256 digit of [v]. *)
Definition little_endian (n : nat) (v : Z) (bs : list byte) : Prop :=
  length bs = n ∧
  ∀ (i : nat) (b : byte),
    bs !! i = Some b → byte_to_Z b = (v / 256 ^ Z.of_nat i) mod 256.

(** What [encode] returns on an integer inside the accepted range (lemma
    [encode_int]): the four layouts, selected as the source selects them. *)
Definition layout (v : Z) : list byte :=
  if v <? 0xFD then [byte_of_Z v]
  else if v <=? 0xFFFF then xfd :: le_digits 2 v
  else if v <=? 0xFFFFFFFF then xfe :: le_digits 4 v
  else xff :: le_digits 8 v.

(** * The UTXO registry

    ** Objects and the store

    A UTXO is the tuple [(transaction_id_hex, vout_index, amount_satoshi)].
    Tuples of a string and two integers are compared structurally, so
    Python's set membership on them is Rocq's equality. *)

Definition UTXO : Type := string * Z * Z.

(** [utxo[2]] *)
Definition amount (utxo : UTXO) : Z := utxo.2.

(** Object identities. *)
Abbreviation addr := positive.

(** The objects the registry code creates: [set] objects, and instances of
    [UTXOSet] whose single attribute [utxos] refers to a set object. *)
Inductive object : Type :=
  | SetObj (elems : gset UTXO)
  | UTXOSetObj (utxos : addr).

Abbreviation heap := (gmap addr object).

(** Computations on the store that may raise. *)
Definition M (A : Type) : Type := heap → result (A * heap).

#[global] Instance M_ret : MRet M := λ A a h, Ok (a, h).
#[global] Instance M_bind : MBind M := λ A B k c h,
  match c h with
  | Ok (a, h') => k a h'
  | Err e => Err e
  end.

Definition raise {A : Type} (e : exn) : M A := λ _, Err e.

(** ** Formatting values for [print]

    [str(n)], [repr(n)] and [f"{n}"] on an integer raise [ValueError] when
    [n] has more than [sys.int_info.default_max_str_digits = 4300] decimal
    digits, the sign not counted.  Strings, floats, booleans, bytes and
    [None] always format.  An index into a list, or its length, is below
    [2^63] and always formats, so formatting it is left out. *)

Definition max_str_digits : Z := 4300.

(** [n] has at most [max_str_digits] digits. *)
Definition printable (n : Z) : Prop := Z.abs n < 10 ^ max_str_digits.

Definition str_int (n : Z) : result unit :=
  if Z.abs n <? 10 ^ max_str_digits then Ok ()
  else Err (ValueError
              "Exceeds the limit (4300 digits) for integer string conversion; use sys.set_int_max_str_digits() to increase the limit").

(** Formatting an arbitrary object. *)
Definition str_val (value : PyVal) : result unit :=
  match value with
  | PyInt z => str_int z
  | _ => Ok ()
  end.



(** [print(...)] of text whose formatting gave [r]. *)
Definition print_ (r : result unit) : M unit := λ h,
  match r with
  | Ok _ => Ok ((), h)
  | Err e => Err e
  end.

(** A new object at an identity no live object has. *)
Definition alloc (o : object) : M addr := λ h,
  let a := fresh (dom h) in Ok (a, <[a := o]> h).

(** [self.utxos] *)
Definition get_utxos (self : addr) : M addr := λ h,
  match h !! self with
  | Some (UTXOSetObj s) => Ok (s, h)
  | _ => Err (AttributeError "object has no attribute 'utxos'")
  end.

(** [self.utxos = s] *)
Definition set_utxos (self s : addr) : M unit := λ h,
  match h !! self with
  | Some (UTXOSetObj _) => Ok ((), <[self := UTXOSetObj s]> h)
  | _ => Err (AttributeError "object has no attribute 'utxos'")
  end.

(** The elements of the set object at [s]. *)
Definition read_set (s : addr) : M (gset UTXO) := λ h,
  match h !! s with
  | Some (SetObj X) => Ok (X, h)
  | _ => Err (AttributeError "object is not a set")
  end.

(** In-place update of the set object at [s]. *)
Definition write_set (s : addr) (X : gset UTXO) : M unit := λ h,
  match h !! s with
  | Some (SetObj _) => Ok ((), <[s := SetObj X]> h)
  | _ => Err (AttributeError "object is not a set")
  end.

(** Formatting a UTXO tuple: its two integers, in order. *)
Definition str_utxo (utxo : UTXO) : result unit :=
  _ ← str_int utxo.1.2; str_int utxo.2.

(** ** Built-in set operations *)

(** [set()] *)
Definition set_new : M addr := alloc (SetObj ∅).

(** [s.add(utxo)] mutates [s]. *)
Definition set_add (s : addr) (utxo : UTXO) : M unit :=
  X ← read_set s; write_set s ({[utxo]} ∪ X).

(** [utxo in s] *)
Definition set_contains (s : addr) (utxo : UTXO) : M bool :=
  X ← read_set s; mret (bool_decide (utxo ∈ X)).

(** [s.remove(utxo)] mutates [s]; raises [KeyError] when absent. *)
Definition set_remove (s : addr) (utxo : UTXO) : M unit :=
  X ← read_set s;
  if bool_decide (utxo ∈ X) then write_set s (X ∖ {[utxo]})
  else raise (KeyError "element not in set").

(** [s.union(t)] returns a new set object. *)
Definition set_union (s t : addr) : M addr :=
  X ← read_set s; Y ← read_set t; alloc (SetObj (X ∪ Y)).

(** [s.intersection(t)] returns a new set object. *)
Definition set_intersection (s t : addr) : M addr :=
  X ← read_set s; Y ← read_set t; alloc (SetObj (X ∩ Y)).

(** [s.issubset(t)] *)
Definition set_issubset (s t : addr) : M bool :=
  X ← read_set s; Y ← read_set t; mret (bool_decide (X ⊆ Y)).

(** [len(s)] *)
Definition set_len (s : addr) : M Z :=
  X ← read_set s; mret (Z.of_nat (size X)).

(** [sum(xs)]: a left fold from [0]. *)
Definition py_sum (xs : list Z) : Z := fold_left Z.add xs 0.

(** [sorted(xs, key=lambda x: x[2], reverse=True)]: a stable sort by
    descending amount.  An element is placed before the first element,
    among those that followed it, whose amount is not larger. *)
Fixpoint insert_desc (utxo : UTXO) (sorted : list UTXO) : list UTXO :=
  match sorted with
  | [] => [utxo]
  | w :: rest =>
      if amount w <=? amount utxo then utxo :: w :: rest
      else w :: insert_desc utxo rest
  end.

Definition sorted_by_amount_desc (xs : list UTXO) : list UTXO :=
  foldr insert_desc [] xs.

(** [for x in xs: body] threading the local variables [st]. *)
Fixpoint for_each {A S : Type} (xs : list A) (body : A → S → M S) (st : S)
  : M S :=
  match xs with
  | [] => mret st
  | x :: rest => st' ← body x st; for_each rest body st'
  end.

(** ** [class UTXOSet]

    Iterating over a [set] visits every element once, in an order the
    language leaves unspecified; [iter] is that order. *)

Section UTXOSet.

Variable iter : gset UTXO → list UTXO.

(** [UTXOSet()], that is [__init__]. *)
Definition UTXOSet_new : M addr :=
  s ← set_new; alloc (UTXOSetObj s).

Definition add_utxo (self : addr) (tx_id : string) (vout_index amount : Z)
  : M unit :=
  let utxo := (tx_id, vout_index, amount) in
  s ← get_utxos self;
  _ ← set_add s utxo;
  print_ (str_utxo utxo).

Definition remove_utxo (self : addr) (tx_id : string) (vout_index amount : Z)
  : M bool :=
  let utxo := (tx_id, vout_index, amount) in
  s ← get_utxos self;
  set_contains s utxo ≫= λ present : bool,
  if present then
    s' ← get_utxos self;
    _ ← set_remove s' utxo;
    _ ← print_ (str_utxo utxo);
    mret true
  else
    _ ← print_ (str_utxo utxo);
    mret false.

Definition get_balance (self : addr) : M Z :=
  s ← get_utxos self;
  X ← read_set s;
  let total_balance := py_sum (amount <$> iter X) in
  mret total_balance.

Definition find_sufficient_utxos (self : addr) (target_amount : Z) : M addr :=
  sufficient_utxos ← set_new;
  let current_sum := 0 in
  _ ← print_ (str_int target_amount);
  s ← get_utxos self;
  X ← read_set s;
  let sorted_utxos := sorted_by_amount_desc (iter X) in
  current_sum ← for_each sorted_utxos
    (λ (utxo : UTXO) (current_sum : Z),
       _ ← set_add sufficient_utxos utxo;
       (mret (current_sum + amount utxo) : M Z))
    current_sum;
  if target_amount <=? current_sum then mret sufficient_utxos
  else
    _ ← print_ (str_int target_amount);
    set_new.

Definition get_total_utxo_count (self : addr) : M Z :=
  s ← get_utxos self; set_len s.

Definition is_subset_of (self other_utxo_set : addr) : M bool :=
  s ← get_utxos self; t ← get_utxos other_utxo_set; set_issubset s t.

Definition combine_utxos (self other_utxo_set : addr) : M addr :=
  combined_set ← UTXOSet_new;
  s ← get_utxos self;
  t ← get_utxos other_utxo_set;
  u ← set_union s t;
  _ ← set_utxos combined_set u;
  mret combined_set.

Definition find_common_utxos (self other_utxo_set : addr) : M addr :=
  common_set ← UTXOSet_new;
  s ← get_utxos self;
  t ← get_utxos other_utxo_set;
  u ← set_intersection s t;
  _ ← set_utxos common_set u;
  mret common_set.

End UTXOSet.

(** ** Vocabulary for the statements *)

(** The store [h] has a registry at [r] whose collection is the set object
    at [s], with elements [X]. *)
Definition holds_at (h : heap) (r s : addr) (X : gset UTXO) : Prop :=
  h !! r = Some (UTXOSetObj s) ∧ h !! s = Some (SetObj X).

Definition holds (h : heap) (r : addr) (X : gset UTXO) : Prop :=
  ∃ s, holds_at h r s X.

(** [c] is a registry created during a computation from [h] to [h']: both
    [c] and the collection it owns are objects that were not live in [h],
    the collection has elements [R], and every object live in [h] is the
    same in [h']. *)
Definition fresh_registry (h : heap) (R : gset UTXO) (c : addr) (h' : heap)
  : Prop :=
  h !! c = None ∧
  (∃ u, h !! u = None ∧ holds_at h' c u R) ∧
  ∀ l o, h !! l = Some o → h' !! l = Some o.

(** The shape shared by [combine_utxos] and [find_common_utxos]. *)
Definition new_from (setop : addr → addr → M addr) (self other : addr)
  : M addr :=
  c ← UTXOSet_new;
  s ← get_utxos self;
  t ← get_utxos other;
  u ← setop s t;
  _ ← set_utxos c u;
  mret c.

(** The sum of the amounts of a list of UTXOs. *)
Definition sum_amounts (l : list UTXO) : Z :=
  foldr (λ utxo acc, amount utxo + acc) 0 l.

(** [l] lists every element of [X] exactly once. *)
Definition lists (l : list UTXO) (X : gset UTXO) : Prop :=
  NoDup l ∧ ∀ utxo, utxo ∈ l ↔ utxo ∈ X.

(** Two example UTXOs and a store with two registries: the registry at [2]
    holds both UTXOs, the registry at [4] holds only the second. *)
Definition utxo_a : UTXO := ("a"%string, 0, 500).
Definition utxo_b : UTXO := ("b"%string, 1, 1500).

Definition example_heap : heap :=
  <[4%positive := UTXOSetObj 3]>
    (<[3%positive := SetObj {[utxo_b]}]>
       (<[2%positive := UTXOSetObj 1]>
          (<[1%positive := SetObj ({[utxo_a]} ∪ {[utxo_b]})]> ∅))).

(** * The transaction container

    [class TransactionData]: [inputs] is a list of dictionaries, [outputs] a
    list of [(value_satoshi, script_pubkey)] tuples, [metadata] a
    dictionary.  The dictionaries of [inputs] are objects of their own,
    handed out by reference, so they live in a store of dictionaries; the
    instance itself is passed from call to call. *)

Abbreviation pydict := (gmap string PyVal).
Abbreviation dict_heap := (gmap addr pydict).

Record TransactionData : Type := mkTransactionData {
  version : Z;
  inputs : list addr;
  outputs : list (PyVal * string);
  lock_time : Z;
  metadata : pydict
}.

(** [__init__(version=1, lock_time=0)] *)
Definition TransactionData_init (version lock_time : Z) : TransactionData :=
  mkTransactionData version [] [] lock_time ∅.

(** The dictionary literal of [add_input]. *)
Definition input_dict (tx_id : string) (vout_index : Z) (script_sig : string)
    (sequence : Z) : pydict :=
  <["prev_txid" := PyStr tx_id]>
    (<["prev_vout" := PyInt vout_index]>
       (<["script_sig" := PyStr script_sig]>
          (<["sequence" := PyInt sequence]> ∅))).

(** [add_input(tx_id, vout_index, script_sig, sequence=0xFFFFFFFF)]: a new
    dictionary is created and a reference to it appended to [inputs]. *)
Definition add_input (tx_id : string) (vout_index : Z) (script_sig : string)
    (sequence : Z) (d : dict_heap) (self : TransactionData)
  : dict_heap * TransactionData :=
  let input_data := input_dict tx_id vout_index script_sig sequence in
  let a := fresh (dom d) in
  (<[a := input_data]> d,
   mkTransactionData (version self) (inputs self ++ [a]) (outputs self)
     (lock_time self) (metadata self)).

Definition add_output (value_satoshi : PyVal) (script_pubkey : string)
    (self : TransactionData) : TransactionData :=
  let output_data := (value_satoshi, script_pubkey) in
  mkTransactionData (version self) (inputs self) (outputs self ++ [output_data])
    (lock_time self) (metadata self).




(** The [while] loop of [summarize_outputs], one iteration per unit of
    fuel; [None] when the fuel runs out before the loop ends or when
    [self.outputs[index]] is out of range, [Some (Err e)] when an exception
    is raised.  Each of the three paths through the body prints [value]
    before going on. *)
Fixpoint summarize_loop (fuel : nat) (outs : list (PyVal * string))
    (min_value : Z) (index : nat) (total_satoshi valid_outputs_count : Z)
  : option (result (Z * Z)) :=
  match fuel with
  | O => None
  | S fuel' =>
      if (index <? length outs)%nat then
        match outs !! index with
        | None => None
        | Some (value, script) =>
            if negb (isinstance_int value)
               || (match int_value value with
                   | Some v => v <? 0
                   | None => false
                   end)
            then
              match str_val value with
              | Err e => Some (Err e)
              | Ok _ =>
                  summarize_loop fuel' outs min_value (index + 1)
                    total_satoshi valid_outputs_count
              end
            else
              match int_value value with
              | None => None
              | Some v =>
                  if v <? min_value then
                    match str_val value with
                    | Err e => Some (Err e)
                    | Ok _ =>
                        summarize_loop fuel' outs min_value (index + 1)
                          total_satoshi valid_outputs_count
                    end
                  else
                    let total_satoshi := total_satoshi + v in
                    let valid_outputs_count := valid_outputs_count + 1 in
                    match str_val value with
                    | Err e => Some (Err e)
                    | Ok _ =>
                        if 1000000000 <? total_satoshi
                        then Some (Ok (total_satoshi, valid_outputs_count))
                        else
                          summarize_loop fuel' outs min_value (index + 1)
                            total_satoshi valid_outputs_count
                    end
              end
        end
      else Some (Ok (total_satoshi, valid_outputs_count))
  end.

(** [summarize_outputs(min_value=0)] run with [fuel] iterations at most. *)
Definition summarize_outputs (fuel : nat) (min_value : Z)
    (self : TransactionData) : option (result (Z * Z)) :=
  summarize_loop fuel (outputs self) min_value 0 0 0.

(** [update_metadata]: [dict.update], the keys of [new_data] win. *)
Definition update_metadata (new_data : pydict) (self : TransactionData)
  : TransactionData :=
  mkTransactionData (version self) (inputs self) (outputs self)
    (lock_time self) (new_data ∪ metadata self).

(** [get_metadata_value(key, default=None)]: [dict.get]. *)
Definition get_metadata_value (key : string) (default : PyVal)
    (self : TransactionData) : PyVal :=
  match metadata self !! key with
  | Some value => value
  | None => default
  end.

Definition get_transaction_header (self : TransactionData) : Z * Z * Z * Z :=
  (version self, Z.of_nat (length (inputs self)),
   Z.of_nat (length (outputs self)), lock_time self).

Definition set_transaction_header (version num_inputs num_outputs lock_time : Z)
    (self : TransactionData) : TransactionData :=
  mkTransactionData version (inputs self) (outputs self) lock_time
    (metadata self).




(** Every reference in [inputs] is a dictionary of the store. *)
Definition tx_wf (d : dict_heap) (self : TransactionData) : Prop :=
  ∀ a, a ∈ inputs self → is_Some (d !! a).




(** An example: a store with one input dictionary and a transaction that
    refers to it. *)
Definition example_dicts : dict_heap :=
  <[1%positive := input_dict "ab" 0 "sig" 5]> ∅.

Definition example_tx : TransactionData :=
  mkTransactionData 1 [1%positive]
    [(PyInt 500, "s1"%string); (PyStr "7", "s2"%string)] 0 ∅.

(** * The block-header generator

    [generate_block_headers] is a generator.  Its state between two calls
    of [next] is the pair of local variables [nonce] and [attempts];
    [gen_next] runs it up to the next [yield] ([Ok (Some _)]), to its end
    ([Ok None]), or to a raised exception ([Err]).  The two increments that
    follow a [yield] cannot fail and are performed before anything else when
    the generator is resumed, so they are folded into the step that
    yielded; the progress message that follows them is printed at the start
    of the next step (it is never due before the first [yield], where
    [attempts + 1] is 1).  The hash is used for printing only, but computing
    it formats the whole header with [str]. *)

Record gen_state : Type := mkGenState { nonce : Z; attempts : Z }.

Definition header_dict (prev_block_hash merkle_root : string)
    (timestamp bits nonce : Z) : pydict :=
  <["version" := PyInt 1]>
    (<["prev_block_hash" := PyStr prev_block_hash]>
       (<["merkle_root" := PyStr merkle_root]>
          (<["timestamp" := PyInt timestamp]>
             (<["bits" := PyInt bits]>
                (<["nonce" := PyInt nonce]> ∅))))).

Section Generator.

Variables (prev_block_hash merkle_root : string).
Variables (timestamp bits start_nonce max_attempts : Z).

(** The generator before its first [next]. *)
Definition generate_block_headers : gen_state := mkGenState start_nonce 0.

Definition gen_next (st : gen_state)
  : result (option (pydict * gen_state)) :=
  _ ← (if (attempts st + 1) mod 100 =? 0
       then str_int (attempts st + 1)
       else Ok ());
  if attempts st <? max_attempts then
    let header_data :=
      header_dict prev_block_hash merkle_root timestamp bits (nonce st) in
    (* str(header_data) *)
    _ ← str_int 1; _ ← str_int timestamp; _ ← str_int bits;
    _ ← str_int (nonce st);
    (* print(f"Attempt {attempts + 1}: Nonce: {nonce}, ...") *)
    _ ← str_int (attempts st + 1); _ ← str_int (nonce st);
    Ok (Some (header_data, mkGenState (nonce st + 1) (attempts st + 1)))
  else Ok None.

(** Iterating over the generator, calling [next] at most [fuel] times: the
    headers yielded, and how the iteration ended: [Some (Ok ())] when the
    generator finished, [Some (Err e)] when it raised [e], [None] when
    neither happened within [fuel] calls. *)
Fixpoint gen_drain (fuel : nat) (st : gen_state)
  : list pydict * option (result unit) :=
  match fuel with
  | O => ([], None)
  | S fuel' =>
      match gen_next st with
      | Err e => ([], Some (Err e))
      | Ok None => ([], Some (Ok ()))
      | Ok (Some (header_data, st')) =>
          let '(rest, outcome) := gen_drain fuel' st' in
          (header_data :: rest, outcome)
      end
  end.

End Generator.

(** * Proofs

    Case analysis on the integer comparisons guarding a branch. *)
Ltac zcases :=
  repeat match goal with
    | |- context [?a <? ?b] => destruct (Z.ltb_spec a b)
    | |- context [?a <=? ?b] => destruct (Z.leb_spec a b)
    | |- context [?a =? ?b] => destruct (Z.eqb_spec a b)
    | H : context [?a <? ?b] |- _ => destruct (Z.ltb_spec a b)
    | H : context [?a <=? ?b] |- _ => destruct (Z.leb_spec a b)
    | H : context [?a =? ?b] |- _ => destruct (Z.eqb_spec a b)
    end.

(** ** The definitions on concrete inputs *)

Example encode_true : encode (PyBool true) = Ok [x01].
Proof. reflexivity. Qed.

Example encode_str : encode (PyStr "5") = Err (ValueError "Value must be an integer.").
Proof. reflexivity. Qed.

Example encode_u64_max :
  encode (PyInt 18446744073709551615) =
    Ok [xff; xff; xff; xff; xff; xff; xff; xff; xff].
Proof. reflexivity. Qed.

Example decode_single : decode [xfc; xfd] = Ok (252, 1).
Proof. reflexivity. Qed.

Example decode_fe : decode [xfe; x00; x00; x01; x00; xaa] = Ok (65536, 5).
Proof. reflexivity. Qed.

Example sorted_is_stable :
  sorted_by_amount_desc
    [("x"%string, 0, 5); ("y"%string, 0, 9); ("z"%string, 0, 5)] =
    [("y"%string, 0, 9); ("x"%string, 0, 5); ("z"%string, 0, 5)].
Proof. reflexivity. Qed.

Example add_then_count :
  (r ← UTXOSet_new;
   _ ← add_utxo r "a" 0 500;
   _ ← add_utxo r "a" 0 500;
   _ ← add_utxo r "b" 1 1500;
   n ← get_total_utxo_count r;
   b ← get_balance elements r;
   mret (n, b)) ∅ ≫= (λ p, Ok p.1) = Ok (2, 2000).
Proof. vm_compute. reflexivity. Qed.

Example remove_absent :
  (r ← UTXOSet_new; remove_utxo r "a" 0 500) ∅ ≫= (λ p, Ok p.1) = Ok false.
Proof. vm_compute. reflexivity. Qed.

(** ** Facts about bytes and digit lists *)

Section Bytes.

Lemma byte_to_Z_range (b : byte) : 0 ≤ byte_to_Z b < 256.
Proof.
  unfold byte_to_Z. pose proof (Byte.to_N_bounded b) as Hb. lia.
Qed.

Lemma byte_to_of_Z (z : Z) : byte_to_Z (byte_of_Z z) = z mod 256.
Proof.
  unfold byte_to_Z, byte_of_Z.
  assert (Hm : 0 ≤ z mod 256 < 256) by (apply Z.mod_pos_bound; lia).
  destruct (Byte.of_N (Z.to_N (z mod 256))) as [b|] eqn:E.
  - apply Byte.to_of_N in E. rewrite E. lia.
  - apply Byte.of_N_None_iff in E. lia.
Qed.

Lemma byte_to_of_Z_small (z : Z) : 0 ≤ z < 256 → byte_to_Z (byte_of_Z z) = z.
Proof. intros Hz. rewrite byte_to_of_Z. apply Z.mod_small. exact Hz. Qed.

Lemma byte_to_Z_inj (a b : byte) : byte_to_Z a = byte_to_Z b → a = b.
Proof.
  unfold byte_to_Z. intros H. apply N2Z.inj in H.
  assert (E : Byte.of_N (Byte.to_N a) = Byte.of_N (Byte.to_N b)) by (f_equal; exact H).
  rewrite !Byte.of_to_N in E. congruence.
Qed.

Lemma length_le_digits (n : nat) (v : Z) : length (le_digits n v) = n.
Proof.
  revert v. induction n as [|n IH]; intros v; simpl; [reflexivity|].
  f_equal. apply IH.
Qed.

Lemma from_bytes_le_digits (n : nat) (v : Z) :
  from_bytes (le_digits n v) = v mod 256 ^ Z.of_nat n.
Proof.
  revert v. induction n as [|n IH]; intros v.
  - simpl. symmetry. apply Z.mod_1_r.
  - cbn [le_digits from_bytes]. rewrite IH, byte_to_of_Z.
    rewrite Nat2Z.inj_succ, Z.pow_succ_r by lia.
    rewrite Z.rem_mul_r by lia. reflexivity.
Qed.

Lemma from_bytes_le_digits_small (n : nat) (v : Z) :
  0 ≤ v < 256 ^ Z.of_nat n → from_bytes (le_digits n v) = v.
Proof. intros Hv. rewrite from_bytes_le_digits. apply Z.mod_small. exact Hv. Qed.

Lemma le_digits_lookup (n : nat) (v : Z) (i : nat) (b : byte) :
  le_digits n v !! i = Some b → byte_to_Z b = (v / 256 ^ Z.of_nat i) mod 256.
Proof.
  revert v i. induction n as [|n IH]; intros v i H; [discriminate|].
  destruct i as [|i]; cbn in H.
  - injection H as <-. rewrite byte_to_of_Z. change (256 ^ Z.of_nat 0) with 1.
    rewrite Z.div_1_r. reflexivity.
  - apply IH in H. rewrite H.
    rewrite Nat2Z.inj_succ, Z.pow_succ_r by lia.
    rewrite Z.div_div by lia. reflexivity.
Qed.

Lemma le_digits_little_endian (n : nat) (v : Z) :
  little_endian n v (le_digits n v).
Proof.
  split; [apply length_le_digits|]. intros i b. apply le_digits_lookup.
Qed.

Lemma slice_take {A : Type} (data : list A) (i j : nat) :
  slice data i j = slice (take j data) i j.
Proof.
  unfold slice. rewrite skipn_firstn_comm, firstn_firstn, Nat.min_id.
  reflexivity.
Qed.

End Bytes.

(** ** The decoder *)

Section Decoder.

Lemma decode_cons (b0 : byte) (rest : list byte) :
  decode (b0 :: rest) = decode_tagged (byte_to_Z b0) (b0 :: rest).
Proof. reflexivity. Qed.

Lemma decode_nil : decode [] = Err (ValueError "Data is too short.").
Proof. reflexivity. Qed.

(** A byte is below [0xFD] or is one of the three prefixes. *)
Lemma tag_cases (t : Z) :
  0 ≤ t < 256 → t < 0xFD ∨ t = 0xFD ∨ t = 0xFE ∨ t = 0xFF.
Proof. lia. Qed.

Lemma tag_length_small (t : Z) : t < 0xFD → tag_length t = 1.
Proof. intros H. unfold tag_length. zcases; lia. Qed.

Lemma tag_length_pos (t : Z) : 1 ≤ tag_length t ≤ 9.
Proof. unfold tag_length. zcases; lia. Qed.

(** On a byte-valued tag the four tested cases are exhaustive: [decode]
    either returns or lacks bytes for the announced length. *)
Lemma decode_tagged_spec (t : Z) (data : list byte) :
  0 ≤ t < 256 →
  decode_tagged t data =
    if t <? 0xFD then Ok (t, 1)
    else if Z.of_nat (length data) <? tag_length t
         then Err (ValueError "Data too short.")
         else Ok (from_bytes (slice data 1 (Z.to_nat (tag_length t))),
                  tag_length t).
Proof.
  intros Hr. destruct (tag_cases t Hr) as [H|[->|[->| ->]]]; try reflexivity.
  unfold decode_tagged. destruct (Z.ltb_spec t 0xFD); [reflexivity|lia].
Qed.

(** What a successful [decode] returns. *)
Lemma decode_Ok_inv (data : list byte) (v n : Z) :
  decode data = Ok (v, n) →
  ∃ (b0 : byte) (k : nat),
    head data = Some b0 ∧ n = Z.of_nat k ∧ n = declared_length b0 ∧
    (1 ≤ k ≤ length data)%nat ∧
    v = if byte_to_Z b0 <? 0xFD then byte_to_Z b0
        else from_bytes (slice data 1 k).
Proof.
  destruct data as [|b0 rest]; [discriminate|].
  rewrite decode_cons, decode_tagged_spec by apply byte_to_Z_range.
  unfold declared_length. change (head (b0 :: rest)) with (Some b0).
  assert (Hlen : (1 ≤ length (b0 :: rest))%nat) by (simpl; lia).
  revert Hlen. generalize (b0 :: rest) as data.
  intros data Hlen H. exists b0, (Z.to_nat (tag_length (byte_to_Z b0))).
  pose proof (tag_length_pos (byte_to_Z b0)) as Hp.
  destruct (Z.ltb_spec (byte_to_Z b0) 0xFD) as [Hs|Hs].
  - injection H as <- <-. rewrite (tag_length_small _ Hs).
    repeat split; try reflexivity; simpl; lia.
  - destruct (Z.ltb_spec (Z.of_nat (length data)) (tag_length (byte_to_Z b0)));
      [discriminate|].
    injection H as <- <-. repeat split; try reflexivity; lia.
Qed.

(** [decode] reads only the bytes it reports as consumed. *)
Lemma decode_prefix (data data' : list byte) (v : Z) (k : nat) :
  decode data = Ok (v, Z.of_nat k) →
  take k data' = take k data →
  decode data' = Ok (v, Z.of_nat k).
Proof.
  intros Hd Hpre.
  destruct (decode_Ok_inv _ _ _ Hd) as (b0 & k' & Hhd & Hk & Hdl & Hle & Hv).
  apply Nat2Z.inj in Hk. subst k'.
  assert (Hlen' : (k ≤ length data')%nat).
  { assert (E : length (take k data') = length (take k data))
      by (f_equal; exact Hpre).
    rewrite !length_take in E. lia. }
  assert (Hs : slice data' 1 k = slice data 1 k).
  { rewrite (slice_take data'), (slice_take data), Hpre. reflexivity. }
  destruct data as [|b rest]; [discriminate|]. injection Hhd as ->.
  destruct data' as [|b' rest']; [simpl in Hlen'; lia|].
  assert (b' = b0) as ->.
  { destruct k as [|k]; [lia|]. cbn in Hpre. congruence. }
  rewrite decode_cons, decode_tagged_spec by apply byte_to_Z_range.
  unfold declared_length in Hdl. rewrite <- Hdl, Nat2Z.id, Hs.
  destruct (Z.ltb_spec (byte_to_Z b0) 0xFD) as [Hsm|Hsm].
  - rewrite Hv, Hdl, (tag_length_small _ Hsm). reflexivity.
  - rewrite <- Hv.
    destruct (Z.ltb_spec (Z.of_nat (length (b0 :: rest'))) (Z.of_nat k));
      [lia|reflexivity].
Qed.

Lemma decode_app (data trailing : list byte) (p : Z * Z) :
  decode data = Ok p → decode (data ++ trailing) = Ok p.
Proof.
  destruct p as [v n]. intros Hd.
  destruct (decode_Ok_inv _ _ _ Hd) as (b0 & k & _ & -> & _ & Hle & _).
  apply (decode_prefix data); [exact Hd|].
  apply take_app_le. lia.
Qed.

(** When and how [decode] fails. *)
Lemma decode_Err_inv (data : list byte) (e : exn) :
  decode data = Err e →
  (data = [] ∧ e = ValueError "Data is too short.") ∨
  (∃ b0, head data = Some b0 ∧ 0xFD ≤ byte_to_Z b0 ∧
         Z.of_nat (length data) < declared_length b0 ∧
         e = ValueError "Data too short.").
Proof.
  destruct data as [|b0 rest].
  - intros [= <-]. left. split; reflexivity.
  - rewrite decode_cons, decode_tagged_spec by apply byte_to_Z_range.
    intros H. right. exists b0. unfold declared_length.
    destruct (Z.ltb_spec (byte_to_Z b0) 0xFD); [discriminate|].
    destruct (Z.ltb_spec (Z.of_nat (length (b0 :: rest)))
                (tag_length (byte_to_Z b0))); [|discriminate].
    injection H as <-. repeat split; [lia|assumption].
Qed.

Lemma decode_short (b0 : byte) (rest : list byte) :
  0xFD ≤ byte_to_Z b0 →
  Z.of_nat (length (b0 :: rest)) < declared_length b0 →
  decode (b0 :: rest) = Err (ValueError "Data too short.").
Proof.
  intros Ht Hl. rewrite decode_cons, decode_tagged_spec by apply byte_to_Z_range.
  unfold declared_length in Hl.
  destruct (Z.ltb_spec (byte_to_Z b0) 0xFD); [lia|].
  destruct (Z.ltb_spec (Z.of_nat (length (b0 :: rest)))
              (tag_length (byte_to_Z b0))); [reflexivity|lia].
Qed.

End Decoder.

(** ** The encoder *)

Section Encoder.

Lemma to_bytes_ok (v : Z) (n : nat) :
  0 ≤ v < 256 ^ Z.of_nat n → to_bytes v n = Ok (le_digits n v).
Proof.
  intros Hv. unfold to_bytes.
  destruct (Z.ltb_spec v 0); [lia|].
  destruct (Z.leb_spec (256 ^ Z.of_nat n) v); [lia|reflexivity].
Qed.

Lemma encode_int (value : PyVal) (v : Z) :
  int_value value = Some v →
  0 ≤ v ≤ 0xFFFFFFFFFFFFFFFF →
  encode value = Ok (layout v).
Proof.
  intros Hi Hv. unfold encode, layout. rewrite Hi.
  destruct (Z.leb_spec 0 v); [|lia].
  destruct (Z.leb_spec v 0xFFFFFFFFFFFFFFFF); [|lia]. cbn [andb negb].
  destruct (Z.ltb_spec v 0xFD).
  { unfold bytes_of_int.
    destruct (Z.leb_spec 0 v); [|lia]. destruct (Z.ltb_spec v 256); [|lia].
    reflexivity. }
  destruct (Z.leb_spec v 0xFFFF).
  { rewrite to_bytes_ok; [reflexivity|].
    change (256 ^ Z.of_nat 2) with 65536. lia. }
  destruct (Z.leb_spec v 0xFFFFFFFF).
  { rewrite to_bytes_ok; [reflexivity|].
    change (256 ^ Z.of_nat 4) with 4294967296. lia. }
  rewrite to_bytes_ok; [reflexivity|].
  change (256 ^ Z.of_nat 8) with 18446744073709551616. lia.
Qed.

Lemma encode_Err_inv (value : PyVal) (e : exn) :
  encode value = Err e →
  (int_value value = None ∧ e = ValueError "Value must be an integer.") ∨
  (∃ v, int_value value = Some v ∧ ¬ (0 ≤ v ≤ 0xFFFFFFFFFFFFFFFF) ∧
        e = ValueError
              "Value must be a non-negative integer and fit within u64.").
Proof.
  intros H. destruct (int_value value) as [v|] eqn:Hi.
  - right. exists v. split; [reflexivity|].
    destruct (decide (0 ≤ v ≤ 0xFFFFFFFFFFFFFFFF)) as [Hv|Hv].
    + rewrite (encode_int _ _ Hi Hv) in H. discriminate.
    + split; [exact Hv|]. unfold encode in H. rewrite Hi in H.
      destruct (Z.leb_spec 0 v); destruct (Z.leb_spec v 0xFFFFFFFFFFFFFFFF);
        cbn [andb negb] in H; try lia; congruence.
  - left. unfold encode in H. rewrite Hi in H. split; congruence.
Qed.

(** A prefix byte followed by exactly the announced number of bytes. *)
Lemma decode_prefixed (b0 : byte) (tail : list byte) :
  0xFD ≤ byte_to_Z b0 →
  declared_length b0 = Z.of_nat (S (length tail)) →
  decode (b0 :: tail) = Ok (from_bytes tail, Z.of_nat (S (length tail))).
Proof.
  intros Ht Hk. unfold declared_length in Hk.
  rewrite decode_cons, decode_tagged_spec by apply byte_to_Z_range.
  destruct (Z.ltb_spec (byte_to_Z b0) 0xFD); [lia|].
  rewrite Hk, Nat2Z.id. change (length (b0 :: tail)) with (S (length tail)).
  destruct (Z.ltb_spec (Z.of_nat (S (length tail))) (Z.of_nat (S (length tail))));
    [lia|].
  unfold slice. cbn [skipn]. change (drop 0 tail) with tail.
  rewrite Nat.sub_succ, Nat.sub_0_r, firstn_all. reflexivity.
Qed.

Lemma decode_layout (v : Z) :
  0 ≤ v ≤ 0xFFFFFFFFFFFFFFFF →
  decode (layout v) = Ok (v, Z.of_nat (length (layout v))).
Proof.
  intros Hv. unfold layout.
  destruct (Z.ltb_spec v 0xFD).
  { rewrite decode_cons, decode_tagged_spec by apply byte_to_Z_range.
    rewrite byte_to_of_Z_small by lia.
    destruct (Z.ltb_spec v 0xFD); [reflexivity|lia]. }
  destruct (Z.leb_spec v 0xFFFF).
  { rewrite decode_prefixed;
      [|vm_compute; discriminate|rewrite length_le_digits; reflexivity].
    rewrite from_bytes_le_digits_small; [reflexivity|].
    change (256 ^ Z.of_nat 2) with 65536. lia. }
  destruct (Z.leb_spec v 0xFFFFFFFF).
  { rewrite decode_prefixed;
      [|vm_compute; discriminate|rewrite length_le_digits; reflexivity].
    rewrite from_bytes_le_digits_small; [reflexivity|].
    change (256 ^ Z.of_nat 4) with 4294967296. lia. }
  rewrite decode_prefixed;
    [|vm_compute; discriminate|rewrite length_le_digits; reflexivity].
  rewrite from_bytes_le_digits_small; [reflexivity|].
  change (256 ^ Z.of_nat 8) with 18446744073709551616. lia.
Qed.

Lemma length_layout (v : Z) :
  Z.of_nat (length (layout v)) =
    if v <? 0xFD then 1 else if v <=? 0xFFFF then 3
    else if v <=? 0xFFFFFFFF then 5 else 9.
Proof.
  unfold layout. zcases; cbn [length]; rewrite ?length_le_digits; reflexivity.
Qed.

End Encoder.

(** ** Running store computations *)

Section Store.

Lemma bind_run {A B : Type} (c : M A) (k : A → M B) (h : heap) :
  (c ≫= k) h = match c h with
               | Ok (a, h') => k a h'
               | Err e => Err e
               end.
Proof. reflexivity. Qed.

Lemma ret_run {A : Type} (a : A) (h : heap) : (mret a : M A) h = Ok (a, h).
Proof. reflexivity. Qed.

Lemma get_utxos_run (h : heap) (self s : addr) :
  h !! self = Some (UTXOSetObj s) → get_utxos self h = Ok (s, h).
Proof. intros H. unfold get_utxos. rewrite H. reflexivity. Qed.

Lemma set_utxos_run (h : heap) (self s s' : addr) :
  h !! self = Some (UTXOSetObj s) →
  set_utxos self s' h = Ok ((), <[self := UTXOSetObj s']> h).
Proof. intros H. unfold set_utxos. rewrite H. reflexivity. Qed.

Lemma read_set_run (h : heap) (s : addr) (X : gset UTXO) :
  h !! s = Some (SetObj X) → read_set s h = Ok (X, h).
Proof. intros H. unfold read_set. rewrite H. reflexivity. Qed.

Lemma set_add_run (h : heap) (s : addr) (X : gset UTXO) (utxo : UTXO) :
  h !! s = Some (SetObj X) →
  set_add s utxo h = Ok ((), <[s := SetObj ({[utxo]} ∪ X)]> h).
Proof.
  intros H. unfold set_add. rewrite bind_run, (read_set_run _ _ _ H).
  unfold write_set. rewrite H. reflexivity.
Qed.

(** Printing integers within the conversion limit succeeds. *)
Lemma str_int_ok (n : Z) : printable n → str_int n = Ok ().
Proof.
  unfold printable, str_int. intros H.
  destruct (Z.ltb_spec (Z.abs n) (10 ^ max_str_digits)); [reflexivity|lia].
Qed.

Lemma str_int_Err (n : Z) : ¬ printable n → ∃ e, str_int n = Err e.
Proof.
  unfold printable, str_int. intros H.
  destruct (Z.ltb_spec (Z.abs n) (10 ^ max_str_digits)); [lia|].
  eexists. reflexivity.
Qed.


Lemma str_utxo_ok (tx_id : string) (vout_index amt : Z) :
  printable vout_index → printable amt →
  str_utxo (tx_id, vout_index, amt) = Ok ().
Proof.
  intros Hv Ha. unfold str_utxo. cbn [fst snd].
  rewrite (str_int_ok _ Hv). exact (str_int_ok _ Ha).
Qed.

Lemma print_run (h : heap) : print_ (Ok ()) h = Ok ((), h).
Proof. reflexivity. Qed.

(** A freshly chosen identity is not in use, so allocation leaves every
    live object as it was. *)
Lemma fresh_not_live (h : heap) : h !! fresh (dom h) = None.
Proof. apply not_elem_of_dom, is_fresh. Qed.

Lemma lookup_alloc_live (h : heap) (o o' : object) (l : addr) :
  h !! l = Some o → <[fresh (dom h) := o']> h !! l = Some o.
Proof.
  intros H. rewrite lookup_insert_ne; [exact H|].
  intros <-. rewrite fresh_not_live in H. discriminate.
Qed.

Lemma holds_at_alloc (h : heap) (o : object) (r s : addr) (X : gset UTXO) :
  holds_at h r s X → holds_at (<[fresh (dom h) := o]> h) r s X.
Proof. intros [Hr Hs]. split; apply lookup_alloc_live; assumption. Qed.

End Store.

(** ** Sums, sorting and listings *)

Section Listings.

Lemma fold_left_add (xs : list Z) (a : Z) :
  fold_left Z.add xs a = a + foldr Z.add 0 xs.
Proof.
  revert a. induction xs as [|x xs IH]; intros a; simpl; [lia|].
  rewrite IH. lia.
Qed.

Lemma py_sum_amounts (l : list UTXO) : py_sum (amount <$> l) = sum_amounts l.
Proof.
  unfold py_sum. rewrite fold_left_add, Z.add_0_l. unfold sum_amounts.
  induction l as [|u l IH]; [reflexivity|].
  rewrite fmap_cons. cbn [foldr]. rewrite IH. reflexivity.
Qed.

Lemma sum_amounts_perm (l l' : list UTXO) :
  l ≡ₚ l' → sum_amounts l = sum_amounts l'.
Proof.
  unfold sum_amounts.
  induction 1 as [|x l l' _ IH|x y l|l l' l'' _ IH1 _ IH2]; simpl; lia.
Qed.

Lemma insert_desc_perm (utxo : UTXO) (l : list UTXO) :
  insert_desc utxo l ≡ₚ utxo :: l.
Proof.
  induction l as [|w l IH]; simpl; [reflexivity|].
  destruct (amount w <=? amount utxo); [reflexivity|].
  rewrite IH. apply Permutation_swap.
Qed.

Lemma sorted_by_amount_desc_perm (l : list UTXO) :
  sorted_by_amount_desc l ≡ₚ l.
Proof.
  unfold sorted_by_amount_desc.
  induction l as [|u l IH]; simpl; [reflexivity|].
  rewrite insert_desc_perm, IH. reflexivity.
Qed.

Lemma lists_perm_elements (l : list UTXO) (X : gset UTXO) :
  lists l X → l ≡ₚ elements X.
Proof.
  intros [Hnd Hin]. apply NoDup_Permutation; [exact Hnd|apply NoDup_elements|].
  intros u. rewrite Hin, elem_of_elements. reflexivity.
Qed.

Lemma lists_elements (X : gset UTXO) : lists (elements X) X.
Proof.
  split; [apply NoDup_elements|]. intros u. apply elem_of_elements.
Qed.

Lemma list_to_set_perm_elements (l : list UTXO) (X : gset UTXO) :
  l ≡ₚ elements X → list_to_set l = X.
Proof.
  intros Hp. apply set_eq. intros u.
  rewrite elem_of_list_to_set, Hp, elem_of_elements. reflexivity.
Qed.

End Listings.

(** ** The methods of [UTXOSet] *)

Section Methods.

Variable iter : gset UTXO → list UTXO.
Hypothesis iter_perm : ∀ X, iter X ≡ₚ elements X.

Lemma get_balance_run (h : heap) (r s : addr) (X : gset UTXO) :
  holds_at h r s X →
  get_balance iter r h = Ok (sum_amounts (elements X), h).
Proof.
  intros [Hr Hs]. unfold get_balance.
  rewrite bind_run, (get_utxos_run _ _ _ Hr).
  rewrite bind_run, (read_set_run _ _ _ Hs), ret_run.
  rewrite py_sum_amounts, (sum_amounts_perm _ _ (iter_perm X)). reflexivity.
Qed.

Lemma get_total_utxo_count_run (h : heap) (r s : addr) (X : gset UTXO) :
  holds_at h r s X →
  get_total_utxo_count r h = Ok (Z.of_nat (size X), h).
Proof.
  intros [Hr Hs]. unfold get_total_utxo_count, set_len.
  rewrite bind_run, (get_utxos_run _ _ _ Hr).
  rewrite bind_run, (read_set_run _ _ _ Hs). reflexivity.
Qed.

Lemma is_subset_of_run (h : heap) (a b sa sb : addr) (X Y : gset UTXO) :
  holds_at h a sa X → holds_at h b sb Y →
  is_subset_of a b h = Ok (bool_decide (X ⊆ Y), h).
Proof.
  intros [Ha Hsa] [Hb Hsb]. unfold is_subset_of, set_issubset.
  rewrite bind_run, (get_utxos_run _ _ _ Ha).
  rewrite bind_run, (get_utxos_run _ _ _ Hb).
  rewrite bind_run, (read_set_run _ _ _ Hsa).
  rewrite bind_run, (read_set_run _ _ _ Hsb). reflexivity.
Qed.

Lemma UTXOSet_new_run (h : heap) :
  UTXOSet_new h =
    Ok (fresh (dom (<[fresh (dom h) := SetObj ∅]> h)),
        <[fresh (dom (<[fresh (dom h) := SetObj ∅]> h))
            := UTXOSetObj (fresh (dom h))]> (<[fresh (dom h) := SetObj ∅]> h)).
Proof. reflexivity. Qed.

(** A registry built from two others by an operation that allocates its
    result. *)
Lemma new_from_run (op : gset UTXO → gset UTXO → gset UTXO)
    (setop : addr → addr → M addr) :
  (∀ h s t X Y, h !! s = Some (SetObj X) → h !! t = Some (SetObj Y) →
                setop s t h = alloc (SetObj (op X Y)) h) →
  ∀ (h : heap) (a b sa sb : addr) (X Y : gset UTXO),
    holds_at h a sa X → holds_at h b sb Y →
    ∃ c h', new_from setop a b h = Ok (c, h') ∧
            fresh_registry h (op X Y) c h'.
Proof.
  intros Hop h a b sa sb X Y Ha Hb. unfold new_from.
  rewrite bind_run, UTXOSet_new_run. cbv beta iota.
  set (s0 := fresh (dom h)). set (h1 := <[s0 := SetObj ∅]> h).
  set (c := fresh (dom h1)). set (h2 := <[c := UTXOSetObj s0]> h1).
  assert (H01 : h ⊆ h1) by apply insert_subseteq, fresh_not_live.
  assert (H12 : h1 ⊆ h2) by apply insert_subseteq, fresh_not_live.
  assert (H02 : h ⊆ h2) by (etrans; eassumption).
  destruct Ha as [Ha Hsa], Hb as [Hb Hsb].
  rewrite bind_run, (get_utxos_run h2 a sa) by (eapply lookup_weaken; eassumption).
  rewrite bind_run.
  rewrite (get_utxos_run h2 b sb) by (eapply lookup_weaken; eassumption).
  rewrite bind_run.
  rewrite (Hop h2 sa sb X Y) by (eapply lookup_weaken; eassumption).
  unfold alloc. set (u := fresh (dom h2)).
  set (h3 := <[u := SetObj (op X Y)]> h2).
  assert (H23 : h2 ⊆ h3) by apply insert_subseteq, fresh_not_live.
  assert (Hc2 : h2 !! c = Some (UTXOSetObj s0)) by apply lookup_insert_eq.
  assert (Hc3 : h3 !! c = Some (UTXOSetObj s0))
    by (eapply lookup_weaken; eassumption).
  rewrite bind_run, (set_utxos_run h3 c s0 u Hc3), ret_run.
  assert (Hc0 : h !! c = None).
  { destruct (h !! c) as [o|] eqn:E; [|reflexivity].
    pose proof (lookup_weaken _ _ _ _ E H01) as E1.
    assert (Hn : h1 !! c = None) by apply fresh_not_live. congruence. }
  assert (Hu0 : h !! u = None).
  { destruct (h !! u) as [o|] eqn:E; [|reflexivity].
    pose proof (lookup_weaken _ _ _ _ E H02) as E2.
    assert (Hn : h2 !! u = None) by apply fresh_not_live. congruence. }
  assert (Huc : c ≠ u).
  { intros E. assert (Hn : h2 !! u = None) by apply fresh_not_live.
    congruence. }
  exists c, (<[c := UTXOSetObj u]> h3). split; [reflexivity|].
  split; [exact Hc0|]. split.
  - exists u. split; [exact Hu0|]. split; [apply lookup_insert_eq|].
    rewrite lookup_insert_ne by exact Huc. apply lookup_insert_eq.
  - intros l o Hl. rewrite lookup_insert_ne by congruence.
    eapply lookup_weaken; [exact Hl|]. etrans; eassumption.
Qed.

Lemma combine_utxos_run (h : heap) (a b sa sb : addr) (X Y : gset UTXO) :
  holds_at h a sa X → holds_at h b sb Y →
  ∃ c h', combine_utxos a b h = Ok (c, h') ∧ fresh_registry h (X ∪ Y) c h'.
Proof.
  apply (new_from_run union set_union).
  clear. intros h s t X Y Hs Ht. unfold set_union.
  rewrite bind_run, (read_set_run _ _ _ Hs).
  rewrite bind_run, (read_set_run _ _ _ Ht). reflexivity.
Qed.

Lemma find_common_utxos_run (h : heap) (a b sa sb : addr) (X Y : gset UTXO) :
  holds_at h a sa X → holds_at h b sb Y →
  ∃ c h', find_common_utxos a b h = Ok (c, h') ∧ fresh_registry h (X ∩ Y) c h'.
Proof.
  apply (new_from_run intersection set_intersection).
  clear. intros h s t X Y Hs Ht. unfold set_intersection.
  rewrite bind_run, (read_set_run _ _ _ Hs).
  rewrite bind_run, (read_set_run _ _ _ Ht). reflexivity.
Qed.

Lemma fresh_registry_frame (h h' : heap) (R X : gset UTXO) (c r s : addr) :
  fresh_registry h R c h' → holds_at h r s X → holds_at h' r s X.
Proof. intros (_ & _ & Hf) [Hr Hs]. split; apply Hf; assumption. Qed.

(** The loop of [find_sufficient_utxos]: every visited UTXO is added to the
    set object at [s0] and its amount to the running sum. *)
Lemma for_each_add_run (s0 : addr) (l : list UTXO) :
  ∀ (h : heap) (acc : Z) (Z0 : gset UTXO),
    h !! s0 = Some (SetObj Z0) →
    for_each l
      (λ (utxo : UTXO) (current_sum : Z),
         _ ← set_add s0 utxo; (mret (current_sum + amount utxo) : M Z))
      acc h
    = Ok (acc + sum_amounts l, <[s0 := SetObj (list_to_set l ∪ Z0)]> h).
Proof.
  induction l as [|u l IH]; intros h acc Z0 H0.
  - cbn [for_each]. rewrite ret_run. cbn [sum_amounts foldr list_to_set].
    rewrite Z.add_0_r, (left_id_L ∅ (∪)), insert_id by exact H0. reflexivity.
  - cbn [for_each]. rewrite bind_run, bind_run, (set_add_run _ _ _ _ H0).
    cbv beta iota. rewrite ret_run.
    rewrite (IH _ _ ({[u]} ∪ Z0)) by apply lookup_insert_eq.
    rewrite insert_insert_eq. unfold sum_amounts. cbn [foldr list_to_set].
    rewrite Z.add_assoc.
    replace (list_to_set l ∪ ({[u]} ∪ Z0)) with ({[u]} ∪ list_to_set l ∪ Z0)
      by (rewrite (comm_L (∪) {[u]} (list_to_set l)), <- (assoc_L (∪));
          reflexivity).
    reflexivity.
Qed.

(** Beyond the conversion limit the first [print] of
    [find_sufficient_utxos] raises. *)
Lemma find_sufficient_utxos_raises (h : heap) (r : addr)
    (target_amount : Z) :
  ¬ printable target_amount →
  ∃ e, find_sufficient_utxos iter r target_amount h = Err e.
Proof.
  intros Hnp. destruct (str_int_Err _ Hnp) as [e He]. exists e.
  unfold find_sufficient_utxos, set_new.
  rewrite bind_run. unfold alloc at 1. cbv beta iota zeta.
  rewrite bind_run, He. reflexivity.
Qed.

Lemma find_sufficient_utxos_run (h : heap) (r s : addr) (X : gset UTXO)
    (target_amount : Z) :
  printable target_amount →
  holds_at h r s X →
  ∃ res h',
    find_sufficient_utxos iter r target_amount h = Ok (res, h') ∧
    h !! res = None ∧
    h' !! res =
      Some (SetObj (if target_amount <=? sum_amounts (elements X)
                    then X else ∅)) ∧
    ∀ l o, h !! l = Some o → h' !! l = Some o.
Proof.
  intros Hprint [Hr Hs]. unfold find_sufficient_utxos, set_new.
  rewrite bind_run. unfold alloc at 1. cbv beta iota zeta.
  set (s0 := fresh (dom h)). set (h1 := <[s0 := SetObj ∅]> h).
  assert (H01 : h ⊆ h1) by apply insert_subseteq, fresh_not_live.
  assert (Hs0 : h !! s0 = None) by apply fresh_not_live.
  rewrite (str_int_ok _ Hprint).
  rewrite bind_run, print_run. cbv beta iota.
  rewrite bind_run, (get_utxos_run h1 r s)
    by (eapply lookup_weaken; eassumption).
  rewrite bind_run, (read_set_run h1 s X)
    by (eapply lookup_weaken; eassumption).
  rewrite bind_run, (for_each_add_run s0 _ h1 0 ∅) by apply lookup_insert_eq.
  cbv beta iota.
  assert (Hp : sorted_by_amount_desc (iter X) ≡ₚ elements X)
    by (rewrite sorted_by_amount_desc_perm; apply iter_perm).
  rewrite (sum_amounts_perm _ _ Hp), (list_to_set_perm_elements _ _ Hp).
  rewrite Z.add_0_l, (right_id_L ∅ (∪)).
  set (h2 := <[s0 := SetObj X]> h1).
  assert (H02 : h ⊆ h2).
  { subst h2 h1. rewrite insert_insert_eq. apply insert_subseteq, Hs0. }
  destruct (target_amount <=? sum_amounts (elements X)).
  - exists s0, h2. rewrite ret_run. split; [reflexivity|].
    split; [exact Hs0|]. split; [apply lookup_insert_eq|].
    intros l o Hl. eapply lookup_weaken; eassumption.
  - rewrite bind_run, print_run. cbv beta iota.
    unfold alloc. set (s1 := fresh (dom h2)).
    assert (Hs1 : h2 !! s1 = None) by apply fresh_not_live.
    exists s1, (<[s1 := SetObj ∅]> h2). split; [reflexivity|]. split.
    { destruct (h !! s1) as [o|] eqn:E; [|reflexivity].
      pose proof (lookup_weaken _ _ _ _ E H02). congruence. }
    split; [apply lookup_insert_eq|].
    intros l o Hl. eapply lookup_weaken; [exact Hl|].
    etrans; [exact H02|]. apply insert_subseteq, Hs1.
Qed.

End Methods.

(** * Properties of the codec *)

(** C1 (round trip).  For every integer [v] with [0 <= v <= 2^64 - 1] the
    encoder returns a byte string, and decoding that byte string returns
    the pair of [v] and the length of the byte string. *)
Theorem encode_decode_roundtrip (v : Z) :
  0 ≤ v ≤ 2 ^ 64 - 1 →
  ∃ bs, encode (PyInt v) = Ok bs ∧ decode bs = Ok (v, Z.of_nat (length bs)).
Proof.
  intros Hv. change (2 ^ 64 - 1) with 0xFFFFFFFFFFFFFFFF in Hv.
  exists (layout v). split.
  - apply encode_int; [reflexivity|exact Hv].
  - apply decode_layout. exact Hv.
Qed.

Lemma encode_decode_roundtrip_witness :
  ∃ bs, encode (PyInt 70000) = Ok bs ∧
        decode bs = Ok (70000, Z.of_nat (length bs)).
Proof. apply (encode_decode_roundtrip 70000). vm_compute. split; discriminate. Defined.

(** C3 (minimal layout).  For every integer [v] with [0 <= v <= 2^64 - 1],
    [encode v] is the single byte [v] when [v <= 252]; [0xFD] followed by
    the 2-byte little-endian value when [253 <= v <= 65535]; [0xFE] followed
    by 4 bytes when [65536 <= v <= 4294967295]; [0xFF] followed by 8 bytes
    otherwise.  Its length is 1, 3, 5 or 9 on those ranges, and
    [encode 252 = [252]], [encode 253 = [0xFD; 253; 0]],
    [encode 65536 = [0xFE; 0; 0; 1; 0]]. *)
Theorem encode_minimal_layout (v : Z) :
  0 ≤ v ≤ 2 ^ 64 - 1 →
  ∃ bs, encode (PyInt v) = Ok bs ∧
    (v ≤ 252 → ∃ b, bs = [b] ∧ byte_to_Z b = v) ∧
    (253 ≤ v ≤ 65535 → ∃ tail, bs = xfd :: tail ∧ little_endian 2 v tail) ∧
    (65536 ≤ v ≤ 4294967295 →
       ∃ tail, bs = xfe :: tail ∧ little_endian 4 v tail) ∧
    (4294967296 ≤ v → ∃ tail, bs = xff :: tail ∧ little_endian 8 v tail) ∧
    Z.of_nat (length bs) =
      (if v <=? 252 then 1 else if v <=? 65535 then 3
       else if v <=? 4294967295 then 5 else 9) ∧
    encode (PyInt 252) = Ok [xfc] ∧
    encode (PyInt 253) = Ok [xfd; xfd; x00] ∧
    encode (PyInt 65536) = Ok [xfe; x00; x00; x01; x00].
Proof.
  intros Hv. change (2 ^ 64 - 1) with 0xFFFFFFFFFFFFFFFF in Hv.
  exists (layout v). split; [apply encode_int; [reflexivity|exact Hv]|].
  repeat split; try reflexivity.
  - intros H. unfold layout. destruct (Z.ltb_spec v 0xFD); [|lia].
    eexists. split; [reflexivity|]. apply byte_to_of_Z_small. lia.
  - intros H. unfold layout. destruct (Z.ltb_spec v 0xFD); [lia|].
    destruct (Z.leb_spec v 0xFFFF); [|lia].
    eexists. split; [reflexivity|]. apply le_digits_little_endian.
  - intros H. unfold layout. destruct (Z.ltb_spec v 0xFD); [lia|].
    destruct (Z.leb_spec v 0xFFFF); [lia|].
    destruct (Z.leb_spec v 0xFFFFFFFF); [|lia].
    eexists. split; [reflexivity|]. apply le_digits_little_endian.
  - intros H. unfold layout. destruct (Z.ltb_spec v 0xFD); [lia|].
    destruct (Z.leb_spec v 0xFFFF); [lia|].
    destruct (Z.leb_spec v 0xFFFFFFFF); [lia|].
    eexists. split; [reflexivity|]. apply le_digits_little_endian.
  - rewrite length_layout. zcases; lia.
Qed.

Lemma encode_minimal_layout_witness :
  ∃ bs, encode (PyInt 65535) = Ok bs ∧
        (253 ≤ 65535 ≤ 65535 →
           ∃ tail, bs = xfd :: tail ∧ little_endian 2 65535 tail) ∧
        Z.of_nat (length bs) = 3.
Proof.
  destruct (encode_minimal_layout 65535) as (bs & He & _ & H2 & _ & _ & Hl & _).
  - vm_compute. split; discriminate.
  - exists bs. split; [exact He|]. split; [exact H2|exact Hl].
Defined.

(** C4 (decoder failure).  [decode] fails exactly when the input is empty,
    or when the first byte is [0xFD], [0xFE] or [0xFF] and fewer than 3, 5 or
    9 bytes are available; every failure is a [TooShort] error and yields no
    value.  In particular [decode []] and [decode [0xFD; 0x01]] fail with
    [TooShort]. *)
Theorem decode_fails_iff_too_short (data : list byte) :
  ((∃ e, decode data = Err e) ↔
     (data = [] ∨
      ∃ b0, head data = Some b0 ∧
        ((byte_to_Z b0 = 0xFD ∧ Z.of_nat (length data) < 3) ∨
         (byte_to_Z b0 = 0xFE ∧ Z.of_nat (length data) < 5) ∨
         (byte_to_Z b0 = 0xFF ∧ Z.of_nat (length data) < 9)))) ∧
  (∀ e, decode data = Err e → TooShort e ∧ ∀ p, decode data ≠ Ok p) ∧
  (∃ e, decode [] = Err e ∧ TooShort e) ∧
  (∃ e, decode [xfd; x01] = Err e ∧ TooShort e).
Proof.
  split; [split|split; [|split]].
  - intros [e He]. apply decode_Err_inv in He as [[-> _]|(b0 & Hh & Ht & Hl & _)].
    + left. reflexivity.
    + right. exists b0. split; [exact Hh|].
      unfold declared_length, tag_length in Hl.
      pose proof (byte_to_Z_range b0). zcases; lia.
  - intros [->|(b0 & Hh & Hc)].
    + eexists. apply decode_nil.
    + destruct data as [|b rest]; [discriminate|]. injection Hh as ->.
      eexists. apply decode_short.
      * lia.
      * unfold declared_length, tag_length. zcases; lia.
  - intros e He. split.
    + apply decode_Err_inv in He as [[_ ->]|(_ & _ & _ & _ & ->)];
        [left|right]; reflexivity.
    + intros p Hp. congruence.
  - eexists. split; [reflexivity|left; reflexivity].
  - eexists. split; [reflexivity|right; reflexivity].
Qed.

(** C5 (encoder failure).  [encode] fails exactly when its argument is not
    an instance of [int] or is an integer outside
    [0 .. 18446744073709551615]; every failure is an [InvalidValue] error and
    yields no bytes.  In particular [encode (-1)] and [encode (2^64)] fail
    with [InvalidValue]. *)
Theorem encode_fails_iff_invalid (value : PyVal) :
  ((∃ e, encode value = Err e) ↔
     (isinstance_int value = false ∨
      ∃ v, int_value value = Some v ∧ (v < 0 ∨ 18446744073709551615 < v))) ∧
  (∀ e, encode value = Err e → InvalidValue e ∧ ∀ bs, encode value ≠ Ok bs) ∧
  (∃ e, encode (PyInt (-1)) = Err e ∧ InvalidValue e) ∧
  (∃ e, encode (PyInt (2 ^ 64)) = Err e ∧ InvalidValue e).
Proof.
  split; [split|split; [|split]].
  - intros [e He]. apply encode_Err_inv in He as [[Hi _]|(v & Hi & Hv & _)].
    + left. unfold isinstance_int. rewrite Hi. reflexivity.
    + right. exists v. split; [exact Hi|lia].
  - intros [Hn|(v & Hi & Hv)]; unfold encode, isinstance_int in *.
    + destruct (int_value value); [discriminate|]. eexists. reflexivity.
    + rewrite Hi.
      destruct (Z.leb_spec 0 v); destruct (Z.leb_spec v 0xFFFFFFFFFFFFFFFF);
        cbn [andb negb]; try lia; eexists; reflexivity.
  - intros e He. split.
    + apply encode_Err_inv in He as [[_ ->]|(_ & _ & _ & ->)];
        [left|right]; reflexivity.
    + intros bs Hb. congruence.
  - eexists. split; [reflexivity|right; reflexivity].
  - eexists. split; [reflexivity|right; reflexivity].
Qed.

(** C6 (decoder tolerance).  [decode [0xFD; 0x05; 0x00]] is [(5, 3)] although
    the encoder writes 5 as a single byte; and whenever [decode] succeeds on
    [data], it consumed at most [length data] bytes, it returns the same pair
    on every input that agrees with [data] on the consumed bytes, and hence
    on [data] followed by arbitrary trailing bytes. *)
Theorem decode_tolerant_and_prefix_only
    (data trailing : list byte) (v consumed : Z) :
  decode data = Ok (v, consumed) →
  decode (data ++ trailing) = Ok (v, consumed) ∧
  0 ≤ consumed ≤ Z.of_nat (length data) ∧
  (∀ data', take (Z.to_nat consumed) data' = take (Z.to_nat consumed) data →
            decode data' = Ok (v, consumed)) ∧
  decode [xfd; x05; x00] = Ok (5, 3) ∧
  encode (PyInt 5) = Ok [x05].
Proof.
  intros Hd. split; [apply decode_app; exact Hd|].
  destruct (decode_Ok_inv _ _ _ Hd) as (b0 & k & _ & -> & _ & Hle & _).
  split; [lia|]. split; [|split; reflexivity].
  intros data' Hpre. rewrite Nat2Z.id in Hpre.
  apply (decode_prefix data); assumption.
Qed.

Lemma decode_tolerant_and_prefix_only_witness :
  decode ([xfe; x01; x02; x03; x04] ++ [xff; xff]) = Ok (67305985, 5).
Proof.
  pose proof (decode_tolerant_and_prefix_only
                [xfe; x01; x02; x03; x04] [xff; xff] 67305985 5) as H.
  destruct H as [H _]; [reflexivity|exact H].
Defined.

(** C10 (exhaustive tags).  On every non-empty input the first byte is below
    [0xFD] or equal to [0xFD], [0xFE] or [0xFF]; the final [else] branch,
    the only place that raises "Data is too short." on a non-empty input, is
    never taken; and [decode] either returns a pair or fails because fewer
    bytes are available than the prefix announces. *)
Theorem decode_final_else_unreachable (data : list byte) :
  data ≠ [] →
  (∃ b0, head data = Some b0 ∧
     (byte_to_Z b0 < 0xFD ∨ byte_to_Z b0 = 0xFD ∨
      byte_to_Z b0 = 0xFE ∨ byte_to_Z b0 = 0xFF) ∧
     decode data = decode_tagged (byte_to_Z b0) data) ∧
  decode data ≠ Err (ValueError "Data is too short.") ∧
  ((∃ p, decode data = Ok p) ∨
   (decode data = Err (ValueError "Data too short.") ∧
    ∃ b0, head data = Some b0 ∧ 0xFD ≤ byte_to_Z b0 ∧
          Z.of_nat (length data) < declared_length b0)).
Proof.
  intros Hne. destruct data as [|b0 rest]; [congruence|]. split; [|split].
  - exists b0. split; [reflexivity|]. split; [|apply decode_cons].
    apply tag_cases, byte_to_Z_range.
  - intros He. apply decode_Err_inv in He as [[? _]|(_ & _ & _ & _ & ?)];
      discriminate.
  - destruct (decode (b0 :: rest)) as [p|e] eqn:E.
    + left. exists p. reflexivity.
    + right. apply decode_Err_inv in E as [[? _]|(b & Hh & Ht & Hl & ->)];
        [discriminate|].
      split; [reflexivity|]. exists b. auto.
Qed.

Lemma decode_final_else_unreachable_witness :
  decode [xff; x00] ≠ Err (ValueError "Data is too short.").
Proof.
  pose proof (decode_final_else_unreachable [xff; x00]) as H.
  destruct H as (_ & H & _); [discriminate|exact H].
Defined.

(** * Properties of the registry *)

Lemma example_holds_2 : holds example_heap 2 ({[utxo_a]} ∪ {[utxo_b]}).
Proof. exists 1%positive. split; vm_compute; reflexivity. Qed.

Lemma example_holds_4 : holds example_heap 4 {[utxo_b]}.
Proof. exists 3%positive. split; vm_compute; reflexivity. Qed.

(** Integers below [2^64] in absolute value, the amounts of the data model
    among them, are within the conversion limit. *)
Lemma printable_u64 (n : Z) : Z.abs n < 2 ^ 64 → printable n.
Proof.
  intros H. unfold printable, max_str_digits.
  assert (2 ^ 64 ≤ 10 ^ 64) by (apply Z.pow_le_mono_l; lia).
  assert (10 ^ 64 ≤ 10 ^ 4300) by (apply Z.pow_le_mono_r; lia).
  lia.
Qed.

Lemma printable_1800 : printable 1800.
Proof. apply printable_u64. reflexivity. Qed.

Section RegistryClaims.

Variable iter : gset UTXO → list UTXO.
Hypothesis iter_perm : ∀ X, iter X ≡ₚ elements X.

(** C7 (balance).  For every registry, [get_balance] returns the exact sum,
    over unbounded integers, of the amounts of the held UTXOs, whatever the
    order in which they are listed, and leaves the store unchanged.  It is 0
    for an empty registry, 2000 for a registry holding [("a",0,500)] and
    [("b",1,1500)], and [2^65 - 2] for one holding two UTXOs of amount
    [2^64 - 1]: no wrap-around at 64 bits. *)
Theorem get_balance_exact_sum (h : heap) (r : addr) (X : gset UTXO) :
  holds h r X →
  (∀ l, lists l X → get_balance iter r h = Ok (sum_amounts l, h)) ∧
  (X = ∅ → get_balance iter r h = Ok (0, h)) ∧
  (X = {[("a"%string, 0, 500)]} ∪ {[("b"%string, 1, 1500)]} →
     get_balance iter r h = Ok (2000, h)) ∧
  (X = {[("a"%string, 0, 2 ^ 64 - 1)]} ∪ {[("b"%string, 0, 2 ^ 64 - 1)]} →
     get_balance iter r h = Ok (2 ^ 65 - 2, h)).
Proof.
  intros [s Hh]. rewrite (get_balance_run iter iter_perm _ _ _ _ Hh).
  split; [|split; [|split]].
  - intros l Hl. rewrite (sum_amounts_perm _ _ (lists_perm_elements _ _ Hl)).
    reflexivity.
  - intros ->. rewrite elements_empty. reflexivity.
  - intros ->. vm_compute. reflexivity.
  - intros ->. vm_compute. reflexivity.
Qed.

(** C2 (selection policy).  For every registry and every target that
    [print] can format (at most 4300 digits, which every 64-bit amount
    is), [find_sufficient_utxos] returns a set object that is empty when the
    held amounts sum to less than the target and holds exactly the
    registry's UTXOs when they sum to at least the target; it is never a
    non-empty proper subset.  The registry itself still holds the same
    UTXOs. *)
Theorem find_sufficient_utxos_all_or_nothing
    (h : heap) (r : addr) (X : gset UTXO) (target_amount : Z)
    (l : list UTXO) :
  printable target_amount →
  holds h r X → lists l X →
  ∃ res h' R,
    find_sufficient_utxos iter r target_amount h = Ok (res, h') ∧
    h' !! res = Some (SetObj R) ∧
    (sum_amounts l < target_amount → R = ∅) ∧
    (target_amount ≤ sum_amounts l → R = X) ∧
    ¬ (R ≠ ∅ ∧ R ⊂ X) ∧
    holds h' r X.
Proof.
  intros Hprint [s Hh] Hl.
  destruct (find_sufficient_utxos_run iter iter_perm h r s X target_amount
              Hprint Hh)
    as (res & h' & Hrun & _ & Hres & Hframe).
  rewrite <- (sum_amounts_perm _ _ (lists_perm_elements _ _ Hl)) in Hres.
  exists res, h'. eexists. split; [exact Hrun|]. split; [exact Hres|].
  destruct Hh as [Hr Hs].
  destruct (Z.leb_spec target_amount (sum_amounts l)); repeat split.
  - lia.
  - intros [_ [_ Hne]]. apply Hne. reflexivity.
  - exists s. split; apply Hframe; assumption.
  - lia.
  - intros [Hne _]. apply Hne. reflexivity.
  - exists s. split; apply Hframe; assumption.
Qed.

End RegistryClaims.

Lemma get_balance_exact_sum_witness :
  get_balance elements 2 example_heap = Ok (2000, example_heap).
Proof.
  pose proof (get_balance_exact_sum elements (λ X, reflexivity _)
                example_heap 2 _ example_holds_2) as H.
  destruct H as (_ & _ & H & _). apply H. reflexivity.
Defined.

Lemma find_sufficient_utxos_all_or_nothing_witness :
  ∃ res h' R,
    find_sufficient_utxos elements 2 1800 example_heap = Ok (res, h') ∧
    h' !! res = Some (SetObj R) ∧
    R = {[utxo_a]} ∪ {[utxo_b]}.
Proof.
  destruct (find_sufficient_utxos_all_or_nothing elements
              (λ X, reflexivity _) example_heap 2 _ 1800
              (elements ({[utxo_a]} ∪ {[utxo_b]}))
              printable_1800 example_holds_2 (lists_elements _))
    as (res & h' & R & Hrun & Hres & _ & Hall & _).
  exists res, h', R. split; [exact Hrun|]. split; [exact Hres|].
  apply Hall. vm_compute. discriminate.
Defined.

(** C8 (set algebra).  For every two registries [A] and [B], the count of
    [A.combine_utxos(B)] is at least the larger of the counts of [A] and
    [B], and [A.find_common_utxos(B).is_subset_of(A)] returns [True]. *)
Theorem union_count_and_intersection_subset
    (h : heap) (a b : addr) (X Y : gset UTXO) :
  holds h a X → holds h b Y →
  (∃ u h1 n na nb,
     combine_utxos a b h = Ok (u, h1) ∧
     get_total_utxo_count u h1 = Ok (n, h1) ∧
     get_total_utxo_count a h1 = Ok (na, h1) ∧
     get_total_utxo_count b h1 = Ok (nb, h1) ∧
     get_total_utxo_count a h = Ok (na, h) ∧
     get_total_utxo_count b h = Ok (nb, h) ∧
     Z.max na nb ≤ n) ∧
  (∃ i h2,
     find_common_utxos a b h = Ok (i, h2) ∧
     is_subset_of i a h2 = Ok (true, h2)).
Proof.
  intros [sa Ha] [sb Hb]. split.
  - destruct (combine_utxos_run h a b sa sb X Y Ha Hb) as (u & h1 & Hrun & Hf).
    pose proof (fresh_registry_frame _ _ _ _ _ _ _ Hf Ha) as Ha1.
    pose proof (fresh_registry_frame _ _ _ _ _ _ _ Hf Hb) as Hb1.
    destruct Hf as (_ & (su & _ & Hu) & _).
    exists u, h1, (Z.of_nat (size (X ∪ Y))), (Z.of_nat (size X)),
      (Z.of_nat (size Y)).
    split; [exact Hrun|].
    rewrite (get_total_utxo_count_run _ _ _ _ Hu).
    rewrite (get_total_utxo_count_run _ _ _ _ Ha1).
    rewrite (get_total_utxo_count_run _ _ _ _ Hb1).
    rewrite (get_total_utxo_count_run _ _ _ _ Ha).
    rewrite (get_total_utxo_count_run _ _ _ _ Hb).
    repeat split.
    assert (size X ≤ size (X ∪ Y))%nat
      by apply subseteq_size, union_subseteq_l.
    assert (size Y ≤ size (X ∪ Y))%nat
      by apply subseteq_size, union_subseteq_r.
    lia.
  - destruct (find_common_utxos_run h a b sa sb X Y Ha Hb)
      as (i & h2 & Hrun & Hf).
    pose proof (fresh_registry_frame _ _ _ _ _ _ _ Hf Ha) as Ha2.
    destruct Hf as (_ & (si & _ & Hi) & _).
    exists i, h2. split; [exact Hrun|].
    rewrite (is_subset_of_run _ _ _ _ _ _ _ Hi Ha2).
    rewrite bool_decide_eq_true_2; [reflexivity|].
    apply intersection_subseteq_l.
Qed.

Lemma union_count_and_intersection_subset_witness :
  ∃ i h2,
    find_common_utxos 2 4 example_heap = Ok (i, h2) ∧
    is_subset_of i 2 h2 = Ok (true, h2).
Proof.
  pose proof (union_count_and_intersection_subset example_heap 2 4 _ _
                example_holds_2 example_holds_4) as H.
  destruct H as [_ H]. exact H.
Defined.

(** C9 (ownership).  For every two registries, [combine_utxos] and
    [find_common_utxos] return a registry object that did not exist before
    and that owns a set object that did not exist before, holding the union
    or intersection; every object that existed before, in particular both
    input registries and their collections, is unchanged. *)
Theorem set_algebra_returns_fresh_registry
    (h : heap) (a b : addr) (X Y : gset UTXO) :
  holds h a X → holds h b Y →
  (∃ c h', combine_utxos a b h = Ok (c, h') ∧
           h !! c = None ∧
           (∃ u, h !! u = None ∧ h' !! c = Some (UTXOSetObj u) ∧
                 h' !! u = Some (SetObj (X ∪ Y))) ∧
           (∀ l o, h !! l = Some o → h' !! l = Some o) ∧
           holds h' a X ∧ holds h' b Y) ∧
  (∃ c h', find_common_utxos a b h = Ok (c, h') ∧
           h !! c = None ∧
           (∃ u, h !! u = None ∧ h' !! c = Some (UTXOSetObj u) ∧
                 h' !! u = Some (SetObj (X ∩ Y))) ∧
           (∀ l o, h !! l = Some o → h' !! l = Some o) ∧
           holds h' a X ∧ holds h' b Y).
Proof.
  intros [sa Ha] [sb Hb]. split.
  - destruct (combine_utxos_run h a b sa sb X Y Ha Hb) as (c & h' & Hrun & Hf).
    pose proof (fresh_registry_frame _ _ _ _ _ _ _ Hf Ha) as Ha1.
    pose proof (fresh_registry_frame _ _ _ _ _ _ _ Hf Hb) as Hb1.
    destruct Hf as (Hc & (u & Hu & Hcu) & Hframe).
    exists c, h'. split; [exact Hrun|]. split; [exact Hc|].
    split; [exists u; split; [exact Hu|exact Hcu]|].
    split; [exact Hframe|]. split; [exists sa|exists sb]; assumption.
  - destruct (find_common_utxos_run h a b sa sb X Y Ha Hb)
      as (c & h' & Hrun & Hf).
    pose proof (fresh_registry_frame _ _ _ _ _ _ _ Hf Ha) as Ha1.
    pose proof (fresh_registry_frame _ _ _ _ _ _ _ Hf Hb) as Hb1.
    destruct Hf as (Hc & (u & Hu & Hcu) & Hframe).
    exists c, h'. split; [exact Hrun|]. split; [exact Hc|].
    split; [exists u; split; [exact Hu|exact Hcu]|].
    split; [exact Hframe|]. split; [exists sa|exists sb]; assumption.
Qed.

Lemma set_algebra_returns_fresh_registry_witness :
  ∃ c h', combine_utxos 2 2 example_heap = Ok (c, h') ∧
          example_heap !! c = None ∧
          holds h' 2 ({[utxo_a]} ∪ {[utxo_b]}).
Proof.
  pose proof (set_algebra_returns_fresh_registry example_heap 2 2 _ _
                example_holds_2 example_holds_2) as H.
  destruct H as [(c & h' & Hrun & Hc & _ & _ & Ha & _) _].
  exists c, h'. split; [exact Hrun|]. split; [exact Hc|exact Ha].
Defined.

(** * Further properties of the registry *)

Section RegistryMutation.

Lemma holds_at_distinct (h : heap) (r s : addr) (X : gset UTXO) :
  holds_at h r s X → r ≠ s.
Proof. intros [Hr Hs] ->. congruence. Qed.

Lemma add_utxo_run (h : heap) (r s : addr) (X : gset UTXO)
    (tx_id : string) (vout_index amt : Z) :
  printable vout_index → printable amt →
  holds_at h r s X →
  add_utxo r tx_id vout_index amt h
  = Ok ((), <[s := SetObj ({[(tx_id, vout_index, amt)]} ∪ X)]> h).
Proof.
  intros Hpv Hpa [Hr Hs]. unfold add_utxo.
  rewrite bind_run, (get_utxos_run _ _ _ Hr). cbv beta iota.
  rewrite bind_run, (set_add_run _ _ _ _ Hs). cbv beta iota.
  rewrite (str_utxo_ok _ _ _ Hpv Hpa). apply print_run.
Qed.

(** Beyond the conversion limit [add_utxo] raises, after the insertion. *)
Lemma add_utxo_raises (h : heap) (r s : addr) (X : gset UTXO)
    (tx_id : string) (vout_index amt : Z) :
  ¬ (printable vout_index ∧ printable amt) →
  holds_at h r s X →
  ∃ e, add_utxo r tx_id vout_index amt h = Err e.
Proof.
  intros Hnp [Hr Hs]. unfold add_utxo.
  rewrite bind_run, (get_utxos_run _ _ _ Hr). cbv beta iota.
  rewrite bind_run, (set_add_run _ _ _ _ Hs). cbv beta iota.
  unfold str_utxo. cbn [fst snd].
  destruct (decide (printable vout_index)) as [Hv|Hv].
  - rewrite (str_int_ok _ Hv).
    destruct (str_int_Err amt) as [e He]; [tauto|].
    exists e. unfold print_. cbn. rewrite He. reflexivity.
  - destruct (str_int_Err vout_index Hv) as [e He].
    exists e. unfold print_. cbn. rewrite He. reflexivity.
Qed.

Lemma holds_at_write (h : heap) (r s : addr) (X X' : gset UTXO) :
  holds_at h r s X → holds_at (<[s := SetObj X']> h) r s X'.
Proof.
  intros Hh. pose proof (holds_at_distinct _ _ _ _ Hh) as Hne.
  destruct Hh as [Hr Hs]. split.
  - rewrite lookup_insert_ne by congruence. exact Hr.
  - apply lookup_insert_eq.
Qed.

Lemma remove_utxo_run (h : heap) (r s : addr) (X : gset UTXO)
    (tx_id : string) (vout_index amt : Z) :
  printable vout_index → printable amt →
  holds_at h r s X →
  remove_utxo r tx_id vout_index amt h
  = if bool_decide ((tx_id, vout_index, amt) ∈ X)
    then Ok (true, <[s := SetObj (X ∖ {[(tx_id, vout_index, amt)]})]> h)
    else Ok (false, h).
Proof.
  intros Hpv Hpa [Hr Hs]. unfold remove_utxo, set_contains, set_remove.
  rewrite (str_utxo_ok _ _ _ Hpv Hpa).
  rewrite bind_run, (get_utxos_run _ _ _ Hr). cbv beta iota.
  rewrite bind_run, bind_run, (read_set_run _ _ _ Hs). cbv beta iota.
  rewrite ret_run. cbv beta iota.
  destruct (decide ((tx_id, vout_index, amt) ∈ X)) as [Hin|Hnin].
  - rewrite !(bool_decide_eq_true_2 _ Hin).
    rewrite bind_run, (get_utxos_run _ _ _ Hr). cbv beta iota.
    rewrite bind_run, bind_run, (read_set_run _ _ _ Hs). cbv beta iota.
    rewrite !(bool_decide_eq_true_2 _ Hin).
    unfold write_set. rewrite Hs. reflexivity.
  - rewrite !(bool_decide_eq_false_2 _ Hnin). reflexivity.
Qed.

(** [remove_utxo] never raises the [KeyError] of [set.remove]. *)
Lemma remove_utxo_no_KeyError (h : heap) (r s : addr) (X : gset UTXO)
    (tx_id : string) (vout_index amt : Z) (msg : string) :
  holds_at h r s X →
  remove_utxo r tx_id vout_index amt h ≠ Err (KeyError msg).
Proof.
  intros [Hr Hs]. unfold remove_utxo, set_contains, set_remove.
  rewrite bind_run, (get_utxos_run _ _ _ Hr). cbv beta iota.
  rewrite bind_run, bind_run, (read_set_run _ _ _ Hs). cbv beta iota.
  rewrite ret_run. cbv beta iota.
  destruct (decide ((tx_id, vout_index, amt) ∈ X)) as [Hin|Hnin].
  - rewrite !(bool_decide_eq_true_2 _ Hin).
    rewrite bind_run, (get_utxos_run _ _ _ Hr). cbv beta iota.
    rewrite bind_run, bind_run, (read_set_run _ _ _ Hs). cbv beta iota.
    rewrite !(bool_decide_eq_true_2 _ Hin).
    unfold write_set. rewrite Hs. cbv beta iota.
    rewrite bind_run. unfold print_, str_utxo, str_int. cbn [fst snd].
    destruct (Z.abs vout_index <? 10 ^ max_str_digits);
      destruct (Z.abs amt <? 10 ^ max_str_digits); cbn; discriminate.
  - rewrite !(bool_decide_eq_false_2 _ Hnin).
    rewrite bind_run. unfold print_, str_utxo, str_int. cbn [fst snd].
    destruct (Z.abs vout_index <? 10 ^ max_str_digits);
      destruct (Z.abs amt <? 10 ^ max_str_digits); cbn; discriminate.
Qed.

(** The sum of the amounts held by a set, and how it splits. *)
Lemma sum_amounts_app (l l' : list UTXO) :
  sum_amounts (l ++ l') = sum_amounts l + sum_amounts l'.
Proof.
  unfold sum_amounts. induction l as [|u l IH]; [reflexivity|].
  cbn [app foldr]. rewrite IH. lia.
Qed.

Lemma sum_elements_disj_union (X Y : gset UTXO) :
  X ## Y →
  sum_amounts (elements (X ∪ Y))
  = sum_amounts (elements X) + sum_amounts (elements Y).
Proof.
  intros Hd. rewrite (sum_amounts_perm _ _ (elements_disj_union X Y Hd)).
  apply sum_amounts_app.
Qed.

Lemma sum_elements_singleton (u : UTXO) :
  sum_amounts (elements ({[u]} : gset UTXO)) = amount u.
Proof. rewrite elements_singleton. unfold sum_amounts. simpl. lia. Qed.

Lemma sum_elements_insert (u : UTXO) (X : gset UTXO) :
  sum_amounts (elements ({[u]} ∪ X))
  = (if bool_decide (u ∈ X) then 0 else amount u)
    + sum_amounts (elements X).
Proof.
  destruct (bool_decide (u ∈ X)) eqn:E.
  - apply bool_decide_eq_true_1 in E.
    replace ({[u]} ∪ X) with X; [lia|].
    apply set_eq. intros w. rewrite elem_of_union, elem_of_singleton.
    split; [auto|]. intros [->|H]; assumption.
  - apply bool_decide_eq_false_1 in E.
    rewrite sum_elements_disj_union, sum_elements_singleton; [reflexivity|].
    apply disjoint_singleton_l. exact E.
Qed.

Lemma sum_elements_remove (u : UTXO) (X : gset UTXO) :
  u ∈ X →
  sum_amounts (elements (X ∖ {[u]})) = sum_amounts (elements X) - amount u.
Proof.
  intros Hu.
  assert (E : X = {[u]} ∪ X ∖ {[u]}).
  { apply set_eq. intros w.
    rewrite elem_of_union, elem_of_difference, elem_of_singleton.
    split.
    - intros Hw. destruct (decide (w = u)) as [->|Hne]; [left|right]; auto.
    - intros [->|[Hw _]]; assumption. }
  rewrite E at 2. rewrite sum_elements_disj_union, sum_elements_singleton.
  - lia.
  - apply disjoint_singleton_l. rewrite elem_of_difference, elem_of_singleton.
    intros [_ Hn]. apply Hn. reflexivity.
Qed.

End RegistryMutation.

(** X1 ([add_utxo]).  On a registry holding [X], when [vout_index] and
    [amount] have at most 4300 digits, [add_utxo] returns, having mutated
    the registry's own set object so that it holds [X] plus the new triple
    and left every other object of the store as it was.  When one of the
    two integers has more than 4300 digits, the final [print] raises and
    [add_utxo] does not return. *)
Theorem add_utxo_inserts_in_place
    (h : heap) (r s : addr) (X : gset UTXO)
    (tx_id : string) (vout_index amt : Z) :
  holds_at h r s X →
  (printable vout_index ∧ printable amt →
   ∃ h', add_utxo r tx_id vout_index amt h = Ok ((), h') ∧
         holds_at h' r s ({[(tx_id, vout_index, amt)]} ∪ X) ∧
         ∀ l, l ≠ s → h' !! l = h !! l) ∧
  (¬ (printable vout_index ∧ printable amt) →
   ∃ e, add_utxo r tx_id vout_index amt h = Err e).
Proof.
  intros Hh. split.
  - intros [Hpv Hpa]. eexists.
    split; [exact (add_utxo_run _ _ _ _ _ _ _ Hpv Hpa Hh)|].
    split; [eapply holds_at_write; exact Hh|].
    intros l Hl. apply lookup_insert_ne. congruence.
  - intros Hnp. eapply add_utxo_raises; eassumption.
Qed.

Lemma add_utxo_inserts_in_place_witness :
  ∃ h', add_utxo 4 "a" 0 500 example_heap = Ok ((), h') ∧
        holds_at h' 4 3 ({[("a"%string, 0, 500)]} ∪ {[utxo_b]}) ∧
        ∀ l, l ≠ 3%positive → h' !! l = example_heap !! l.
Proof.
  destruct (add_utxo_inserts_in_place example_heap 4 3 {[utxo_b]} "a" 0 500)
    as [H _].
  - split; vm_compute; reflexivity.
  - apply H. split; apply printable_u64; reflexivity.
Defined.

(** X2 (idempotent add).  For a triple whose integers have at most 4300
    digits, adding it a second time changes nothing: the second [add_utxo]
    returns the store it was given, and the count after one or two
    additions is the old count plus one when the triple was new, and the old
    count when it was already held. *)
Theorem add_utxo_twice_same_count
    (h : heap) (r : addr) (X : gset UTXO)
    (tx_id : string) (vout_index amt : Z) :
  printable vout_index → printable amt →
  holds h r X →
  ∃ h1,
    add_utxo r tx_id vout_index amt h = Ok ((), h1) ∧
    add_utxo r tx_id vout_index amt h1 = Ok ((), h1) ∧
    get_total_utxo_count r h1
    = Ok (Z.of_nat (size X)
          + (if bool_decide ((tx_id, vout_index, amt) ∈ X) then 0 else 1),
          h1).
Proof.
  intros Hpv Hpa [s Hh]. set (u := (tx_id, vout_index, amt)).
  pose proof (holds_at_write _ _ _ _ ({[u]} ∪ X) Hh) as Hh1.
  exists (<[s := SetObj ({[u]} ∪ X)]> h).
  split; [exact (add_utxo_run _ _ _ _ _ _ _ Hpv Hpa Hh)|]. split.
  - rewrite (add_utxo_run _ _ _ _ _ _ _ Hpv Hpa Hh1). fold u.
    rewrite insert_insert_eq.
    replace ({[u]} ∪ ({[u]} ∪ X)) with ({[u]} ∪ X); [reflexivity|].
    rewrite (assoc_L (∪)), (idemp_L (∪)). reflexivity.
  - rewrite (get_total_utxo_count_run _ _ _ _ Hh1). do 2 f_equal.
    destruct (decide (u ∈ X)) as [Hin|Hnin].
    + rewrite (bool_decide_eq_true_2 _ Hin).
      replace ({[u]} ∪ X) with X; [lia|].
      apply set_eq. intros w. rewrite elem_of_union, elem_of_singleton.
      split; [auto|]. intros [->|H]; assumption.
    + rewrite (bool_decide_eq_false_2 _ Hnin).
      rewrite size_union by (apply disjoint_singleton_l; exact Hnin).
      rewrite size_singleton. lia.
Qed.

Lemma add_utxo_twice_same_count_witness :
  ∃ h1,
    add_utxo 2 "b" 1 1500 example_heap = Ok ((), h1) ∧
    add_utxo 2 "b" 1 1500 h1 = Ok ((), h1) ∧
    get_total_utxo_count 2 h1 = Ok (2, h1).
Proof.
  destruct (add_utxo_twice_same_count example_heap 2 _ "b" 1 1500
              (printable_u64 1 eq_refl) (printable_u64 1500 eq_refl)
              example_holds_2) as (h1 & H1 & H2 & H3).
  exists h1. split; [exact H1|]. split; [exact H2|].
  rewrite H3. vm_compute. reflexivity.
Defined.

(** X3 ([remove_utxo]).  On a registry holding [X], [remove_utxo] never
    raises the [KeyError] of [set.remove].  When [vout_index] and [amount]
    have at most 4300 digits it returns [True] exactly when the triple is
    held, in which case the registry's set object afterwards holds [X]
    without the triple and every other object is unchanged; it returns
    [False] otherwise and leaves the store as it is. *)
Theorem remove_utxo_reports_presence
    (h : heap) (r s : addr) (X : gset UTXO)
    (tx_id : string) (vout_index amt : Z) :
  holds_at h r s X →
  (∀ msg, remove_utxo r tx_id vout_index amt h ≠ Err (KeyError msg)) ∧
  (printable vout_index ∧ printable amt →
   ∃ (b : bool) h',
     remove_utxo r tx_id vout_index amt h = Ok (b, h') ∧
     (b = true ↔ (tx_id, vout_index, amt) ∈ X) ∧
     holds_at h' r s (X ∖ {[(tx_id, vout_index, amt)]}) ∧
     (b = false → h' = h) ∧
     ∀ l, l ≠ s → h' !! l = h !! l).
Proof.
  intros Hh. split.
  { intros msg. eapply remove_utxo_no_KeyError. exact Hh. }
  intros [Hpv Hpa]. rewrite (remove_utxo_run _ _ _ _ _ _ _ Hpv Hpa Hh).
  destruct (decide ((tx_id, vout_index, amt) ∈ X)) as [Hin|Hnin].
  - rewrite (bool_decide_eq_true_2 _ Hin). eexists _, _.
    split; [reflexivity|]. split; [tauto|].
    split; [eapply holds_at_write; exact Hh|]. split; [discriminate|].
    intros l Hl. apply lookup_insert_ne. congruence.
  - rewrite (bool_decide_eq_false_2 _ Hnin). eexists _, _.
    split; [reflexivity|]. split; [split; [discriminate|contradiction]|].
    split; [|split; [reflexivity|reflexivity]].
    replace (X ∖ {[(tx_id, vout_index, amt)]}) with X; [exact Hh|].
    apply set_eq. intros w. rewrite elem_of_difference, elem_of_singleton.
    split; [|tauto]. intros Hw. split; [exact Hw|]. intros ->. contradiction.
Qed.

Lemma remove_utxo_reports_presence_witness :
  ∃ (b : bool) h',
    remove_utxo 4 "a" 0 500 example_heap = Ok (b, h') ∧
    (b = true ↔ ("a"%string, 0, 500) ∈ ({[utxo_b]} : gset UTXO)) ∧
    (b = false → h' = example_heap).
Proof.
  destruct (remove_utxo_reports_presence example_heap 4 3 {[utxo_b]} "a" 0 500)
    as [_ H].
  - split; vm_compute; reflexivity.
  - destruct H as (b & h' & H1 & H2 & _ & H3 & _).
    + split; apply printable_u64; reflexivity.
    + exists b, h'. split; [exact H1|]. split; [exact H2|exact H3].
Defined.

(** X4 (add then remove).  Adding a triple that the registry does not
    hold, with integers of at most 4300 digits, and removing it again
    returns [True] and restores the store exactly. *)
Theorem add_then_remove_restores
    (h : heap) (r : addr) (X : gset UTXO)
    (tx_id : string) (vout_index amt : Z) :
  printable vout_index → printable amt →
  holds h r X → (tx_id, vout_index, amt) ∉ X →
  (_ ← add_utxo r tx_id vout_index amt;
   remove_utxo r tx_id vout_index amt) h = Ok (true, h).
Proof.
  intros Hpv Hpa [s Hh] Hnin. set (u := (tx_id, vout_index, amt)) in *.
  rewrite bind_run, (add_utxo_run _ _ _ _ _ _ _ Hpv Hpa Hh).
  cbv beta iota. fold u.
  pose proof (holds_at_write _ _ _ _ ({[u]} ∪ X) Hh) as Hh1.
  rewrite (remove_utxo_run _ _ _ _ _ _ _ Hpv Hpa Hh1). fold u.
  rewrite bool_decide_eq_true_2
    by (apply elem_of_union_l, elem_of_singleton; reflexivity).
  rewrite insert_insert_eq.
  replace (({[u]} ∪ X) ∖ {[u]}) with X.
  - rewrite insert_id; [reflexivity|]. apply Hh.
  - apply set_eq. intros w.
    rewrite elem_of_difference, elem_of_union, elem_of_singleton.
    split; [|tauto]. intros Hw. split; [auto|]. intros ->. contradiction.
Qed.

Lemma add_then_remove_restores_witness :
  (_ ← add_utxo 4 "a" 0 500; remove_utxo 4 "a" 0 500) example_heap
  = Ok (true, example_heap).
Proof.
  apply (add_then_remove_restores example_heap 4 {[utxo_b]} "a" 0 500).
  - apply printable_u64. reflexivity.
  - apply printable_u64. reflexivity.
  - exact example_holds_4.
  - vm_compute. intros H. discriminate.
Defined.

Section RegistryBalance.

Variable iter : gset UTXO → list UTXO.
Hypothesis iter_perm : ∀ X, iter X ≡ₚ elements X.

(** X5 (balance follows mutation).  For a triple whose integers have at
    most 4300 digits: after [add_utxo] the balance has grown by the added
    amount when the triple was new and is unchanged when it was already
    held; after [remove_utxo] it has shrunk by the amount when the triple
    was held and is unchanged otherwise. *)
Theorem balance_after_add_and_remove
    (h : heap) (r : addr) (X : gset UTXO)
    (tx_id : string) (vout_index amt : Z) :
  printable vout_index → printable amt →
  holds h r X →
  ∃ bal,
    get_balance iter r h = Ok (bal, h) ∧
    (∃ h1, add_utxo r tx_id vout_index amt h = Ok ((), h1) ∧
           get_balance iter r h1
           = Ok (bal + (if bool_decide ((tx_id, vout_index, amt) ∈ X)
                        then 0 else amt), h1)) ∧
    (∃ b h2, remove_utxo r tx_id vout_index amt h = Ok (b, h2) ∧
             get_balance iter r h2
             = Ok (bal - (if b then amt else 0), h2)).
Proof.
  intros Hpv Hpa [s Hh].
  exists (sum_amounts (elements X)).
  split; [apply (get_balance_run iter iter_perm _ _ _ _ Hh)|]. split.
  - eexists. split; [exact (add_utxo_run _ _ _ _ _ _ _ Hpv Hpa Hh)|].
    rewrite (get_balance_run iter iter_perm _ _ _ _
               (holds_at_write _ _ _ _ _ Hh)).
    rewrite sum_elements_insert. do 2 f_equal.
    destruct (decide ((tx_id, vout_index, amt) ∈ X)) as [Hin|Hnin].
    + rewrite !(bool_decide_eq_true_2 _ Hin). lia.
    + rewrite !(bool_decide_eq_false_2 _ Hnin). unfold amount. simpl. lia.
  - rewrite (remove_utxo_run _ _ _ _ _ _ _ Hpv Hpa Hh).
    destruct (decide ((tx_id, vout_index, amt) ∈ X)) as [Hin|Hnin].
    + rewrite (bool_decide_eq_true_2 _ Hin). eexists _, _.
      split; [reflexivity|].
      rewrite (get_balance_run iter iter_perm _ _ _ _
                 (holds_at_write _ _ _ _ _ Hh)).
      do 2 f_equal. exact (sum_elements_remove _ _ Hin).
    + rewrite (bool_decide_eq_false_2 _ Hnin). eexists _, _.
      split; [reflexivity|].
      rewrite (get_balance_run iter iter_perm _ _ _ _ Hh).
      do 2 f_equal. lia.
Qed.

(** X6 (inclusion and exclusion).  For two registries [A] and [B], the
    balance of [A.combine_utxos(B)] plus the balance of
    [A.find_common_utxos(B)] equals the balance of [A] plus the balance of
    [B]: a UTXO held by both is counted once in the union. *)
Theorem balance_union_plus_common
    (h : heap) (a b : addr) (X Y : gset UTXO) :
  holds h a X → holds h b Y →
  ∃ u h1 i h2 bu bi ba bb,
    combine_utxos a b h = Ok (u, h1) ∧
    get_balance iter u h1 = Ok (bu, h1) ∧
    find_common_utxos a b h1 = Ok (i, h2) ∧
    get_balance iter i h2 = Ok (bi, h2) ∧
    get_balance iter a h2 = Ok (ba, h2) ∧
    get_balance iter b h2 = Ok (bb, h2) ∧
    bu + bi = ba + bb.
Proof.
  intros [sa Ha] [sb Hb].
  destruct (combine_utxos_run h a b sa sb X Y Ha Hb) as (u & h1 & Hu & Hf1).
  pose proof (fresh_registry_frame _ _ _ _ _ _ _ Hf1 Ha) as Ha1.
  pose proof (fresh_registry_frame _ _ _ _ _ _ _ Hf1 Hb) as Hb1.
  destruct (find_common_utxos_run h1 a b sa sb X Y Ha1 Hb1)
    as (i & h2 & Hi & Hf2).
  pose proof (fresh_registry_frame _ _ _ _ _ _ _ Hf2 Ha1) as Ha2.
  pose proof (fresh_registry_frame _ _ _ _ _ _ _ Hf2 Hb1) as Hb2.
  destruct Hf1 as (_ & (su & _ & Hsu) & _).
  destruct Hf2 as (_ & (si & _ & Hsi) & _).
  exists u, h1, i, h2. eexists _, _, _, _.
  split; [exact Hu|].
  split; [apply (get_balance_run iter iter_perm _ _ _ _ Hsu)|].
  split; [exact Hi|].
  split; [apply (get_balance_run iter iter_perm _ _ _ _ Hsi)|].
  split; [apply (get_balance_run iter iter_perm _ _ _ _ Ha2)|].
  split; [apply (get_balance_run iter iter_perm _ _ _ _ Hb2)|].
  assert (EU : X ∪ Y = X ∪ Y ∖ X).
  { apply set_eq. intros w. rewrite !elem_of_union, elem_of_difference.
    destruct (decide (w ∈ X)); tauto. }
  assert (EY : Y = X ∩ Y ∪ Y ∖ X).
  { apply set_eq. intros w.
    rewrite elem_of_union, elem_of_intersection, elem_of_difference.
    destruct (decide (w ∈ X)); tauto. }
  rewrite EU, sum_elements_disj_union.
  - rewrite EY at 3. rewrite sum_elements_disj_union; [lia|].
    intros w. rewrite elem_of_intersection, elem_of_difference. tauto.
  - intros w. rewrite elem_of_difference. tauto.
Qed.

(** X7 (selection result is its own object).  For integers of at most
    4300 digits, the set returned by [find_sufficient_utxos] is a set object
    created by the call, never the registry's own collection: every object
    that existed before is unchanged, and adding a triple to the registry
    afterwards does not change the returned set. *)
Theorem find_sufficient_utxos_returns_new_set
    (h : heap) (r s : addr) (X : gset UTXO) (target_amount : Z)
    (tx_id : string) (vout_index amt : Z) :
  printable target_amount → printable vout_index → printable amt →
  holds_at h r s X →
  ∃ res h' R h'',
    find_sufficient_utxos iter r target_amount h = Ok (res, h') ∧
    h !! res = None ∧ res ≠ s ∧
    h' !! res = Some (SetObj R) ∧
    (∀ l o, h !! l = Some o → h' !! l = Some o) ∧
    add_utxo r tx_id vout_index amt h' = Ok ((), h'') ∧
    h'' !! res = Some (SetObj R) ∧
    holds_at h'' r s ({[(tx_id, vout_index, amt)]} ∪ X).
Proof.
  intros Hpt Hpv Hpa Hh.
  destruct (find_sufficient_utxos_run iter iter_perm h r s X target_amount
              Hpt Hh)
    as (res & h' & Hrun & Hnew & Hres & Hframe).
  assert (Hne : res ≠ s).
  { intros ->. destruct Hh as [_ Hs]. congruence. }
  assert (Hh' : holds_at h' r s X).
  { destruct Hh as [Hr Hs]. split; apply Hframe; assumption. }
  exists res, h'. eexists _, _. split; [exact Hrun|].
  split; [exact Hnew|]. split; [exact Hne|]. split; [exact Hres|].
  split; [exact Hframe|].
  split; [exact (add_utxo_run _ _ _ _ _ _ _ Hpv Hpa Hh')|].
  split; [rewrite lookup_insert_ne by congruence; exact Hres|].
  eapply holds_at_write. exact Hh'.
Qed.

End RegistryBalance.

Lemma balance_after_add_and_remove_witness :
  ∃ bal,
    get_balance elements 4 example_heap = Ok (bal, example_heap) ∧
    ∃ h1, add_utxo 4 "a" 0 500 example_heap = Ok ((), h1) ∧
          get_balance elements 4 h1 = Ok (bal + 500, h1).
Proof.
  destruct (balance_after_add_and_remove elements (λ X, reflexivity _)
              example_heap 4 _ "a" 0 500
              (printable_u64 0 eq_refl) (printable_u64 500 eq_refl)
              example_holds_4)
    as (bal & Hb & (h1 & Ha & Hb1) & _).
  exists bal. split; [exact Hb|]. exists h1. split; [exact Ha|].
  rewrite Hb1. vm_compute. reflexivity.
Defined.

Lemma balance_union_plus_common_witness :
  ∃ u h1 i h2 bu bi ba bb,
    combine_utxos 2 4 example_heap = Ok (u, h1) ∧
    get_balance elements u h1 = Ok (bu, h1) ∧
    find_common_utxos 2 4 h1 = Ok (i, h2) ∧
    get_balance elements i h2 = Ok (bi, h2) ∧
    get_balance elements 2 h2 = Ok (ba, h2) ∧
    get_balance elements 4 h2 = Ok (bb, h2) ∧
    bu + bi = ba + bb.
Proof.
  exact (balance_union_plus_common elements (λ X, reflexivity _)
           example_heap 2 4 _ _ example_holds_2 example_holds_4).
Defined.

Lemma find_sufficient_utxos_returns_new_set_witness :
  ∃ res h' R,
    find_sufficient_utxos elements 2 100 example_heap = Ok (res, h') ∧
    example_heap !! res = None ∧ res ≠ 1%positive ∧
    h' !! res = Some (SetObj R).
Proof.
  destruct (find_sufficient_utxos_returns_new_set elements
              (λ X, reflexivity _) example_heap 2 1
              ({[utxo_a]} ∪ {[utxo_b]}) 100 "c" 0 7)
    as (res & h' & R & _ & H1 & H2 & H3 & H4 & _).
  - apply printable_u64. reflexivity.
  - apply printable_u64. reflexivity.
  - apply printable_u64. reflexivity.
  - split; vm_compute; reflexivity.
  - exists res, h', R. repeat split; assumption.
Defined.

(** X8 ([is_subset_of]).  [A.is_subset_of(B)] never raises, leaves the
    store unchanged, and returns [True] exactly when every UTXO held by [A]
    is held by [B]; in particular a registry is a subset of itself. *)
Theorem is_subset_of_iff_all_held
    (h : heap) (a b : addr) (X Y : gset UTXO) :
  holds h a X → holds h b Y →
  ∃ res : bool,
    is_subset_of a b h = Ok (res, h) ∧
    (res = true ↔ ∀ utxo, utxo ∈ X → utxo ∈ Y) ∧
    is_subset_of a a h = Ok (true, h).
Proof.
  intros [sa Ha] [sb Hb]. exists (bool_decide (X ⊆ Y)).
  split; [apply (is_subset_of_run _ _ _ _ _ _ _ Ha Hb)|]. split.
  - rewrite bool_decide_eq_true. reflexivity.
  - rewrite (is_subset_of_run _ _ _ _ _ _ _ Ha Ha).
    rewrite bool_decide_eq_true_2; reflexivity.
Qed.

Lemma is_subset_of_iff_all_held_witness :
  ∃ res : bool,
    is_subset_of 4 2 example_heap = Ok (res, example_heap) ∧
    (res = true ↔
     ∀ utxo, utxo ∈ ({[utxo_b]} : gset UTXO) →
             utxo ∈ ({[utxo_a]} ∪ {[utxo_b]} : gset UTXO)).
Proof.
  destruct (is_subset_of_iff_all_held example_heap 4 2 _ _
              example_holds_4 example_holds_2) as (res & H1 & H2 & _).
  exists res. split; [exact H1|exact H2].
Defined.

(** X9 (inputs are inside their union).  For two registries [A] and [B],
    with [U = A.combine_utxos(B)] and [I = A.find_common_utxos(B)]:
    [A.is_subset_of(U)], [B.is_subset_of(U)] and [I.is_subset_of(B)] all
    return [True]. *)
Theorem inputs_subset_of_union
    (h : heap) (a b : addr) (X Y : gset UTXO) :
  holds h a X → holds h b Y →
  (∃ u h1, combine_utxos a b h = Ok (u, h1) ∧
           is_subset_of a u h1 = Ok (true, h1) ∧
           is_subset_of b u h1 = Ok (true, h1)) ∧
  (∃ i h2, find_common_utxos a b h = Ok (i, h2) ∧
           is_subset_of i b h2 = Ok (true, h2)).
Proof.
  intros [sa Ha] [sb Hb]. split.
  - destruct (combine_utxos_run h a b sa sb X Y Ha Hb) as (u & h1 & Hu & Hf).
    pose proof (fresh_registry_frame _ _ _ _ _ _ _ Hf Ha) as Ha1.
    pose proof (fresh_registry_frame _ _ _ _ _ _ _ Hf Hb) as Hb1.
    destruct Hf as (_ & (su & _ & Hsu) & _).
    exists u, h1. split; [exact Hu|].
    rewrite (is_subset_of_run _ _ _ _ _ _ _ Ha1 Hsu).
    rewrite (is_subset_of_run _ _ _ _ _ _ _ Hb1 Hsu).
    rewrite !bool_decide_eq_true_2;
      [split; reflexivity|apply union_subseteq_r|apply union_subseteq_l].
  - destruct (find_common_utxos_run h a b sa sb X Y Ha Hb)
      as (i & h2 & Hi & Hf).
    pose proof (fresh_registry_frame _ _ _ _ _ _ _ Hf Hb) as Hb2.
    destruct Hf as (_ & (si & _ & Hsi) & _).
    exists i, h2. split; [exact Hi|].
    rewrite (is_subset_of_run _ _ _ _ _ _ _ Hsi Hb2).
    rewrite bool_decide_eq_true_2; [reflexivity|].
    apply intersection_subseteq_r.
Qed.

Lemma inputs_subset_of_union_witness :
  ∃ u h1, combine_utxos 2 4 example_heap = Ok (u, h1) ∧
          is_subset_of 2 u h1 = Ok (true, h1) ∧
          is_subset_of 4 u h1 = Ok (true, h1).
Proof.
  destruct (inputs_subset_of_union example_heap 2 4 _ _
              example_holds_2 example_holds_4) as [H _].
  exact H.
Defined.

(** X10 (order of the operands).  [A.combine_utxos(B)] and
    [B.combine_utxos(A)] hold the same UTXOs, and so do
    [A.find_common_utxos(B)] and [B.find_common_utxos(A)]; combining or
    intersecting a registry with itself gives a registry holding the same
    UTXOs as the original. *)
Theorem set_algebra_symmetric
    (h : heap) (a b : addr) (X Y : gset UTXO) :
  holds h a X → holds h b Y →
  ∃ c1 h1 c2 h2 c3 h3 c4 h4 c5 h5 c6 h6 U I,
    combine_utxos a b h = Ok (c1, h1) ∧ holds h1 c1 U ∧
    combine_utxos b a h = Ok (c2, h2) ∧ holds h2 c2 U ∧
    find_common_utxos a b h = Ok (c3, h3) ∧ holds h3 c3 I ∧
    find_common_utxos b a h = Ok (c4, h4) ∧ holds h4 c4 I ∧
    combine_utxos a a h = Ok (c5, h5) ∧ holds h5 c5 X ∧
    find_common_utxos a a h = Ok (c6, h6) ∧ holds h6 c6 X ∧
    U = X ∪ Y ∧ I = X ∩ Y.
Proof.
  intros [sa Ha] [sb Hb].
  destruct (combine_utxos_run h a b sa sb X Y Ha Hb)
    as (c1 & h1 & R1 & _ & (u1 & _ & H1) & _).
  destruct (combine_utxos_run h b a sb sa Y X Hb Ha)
    as (c2 & h2 & R2 & _ & (u2 & _ & H2) & _).
  destruct (find_common_utxos_run h a b sa sb X Y Ha Hb)
    as (c3 & h3 & R3 & _ & (u3 & _ & H3) & _).
  destruct (find_common_utxos_run h b a sb sa Y X Hb Ha)
    as (c4 & h4 & R4 & _ & (u4 & _ & H4) & _).
  destruct (combine_utxos_run h a a sa sa X X Ha Ha)
    as (c5 & h5 & R5 & _ & (u5 & _ & H5) & _).
  destruct (find_common_utxos_run h a a sa sa X X Ha Ha)
    as (c6 & h6 & R6 & _ & (u6 & _ & H6) & _).
  rewrite (comm_L (∪) Y X) in H2. rewrite (comm_L (∩) Y X) in H4.
  rewrite (idemp_L (∪) X) in H5. rewrite (idemp_L (∩) X) in H6.
  exists c1, h1, c2, h2, c3, h3, c4, h4, c5, h5, c6, h6, (X ∪ Y), (X ∩ Y).
  repeat split; try assumption;
    [exists u1|exists u2|exists u3|exists u4|exists u5|exists u6]; assumption.
Qed.

Lemma set_algebra_symmetric_witness :
  ∃ c1 h1 c2 h2 U,
    combine_utxos 2 4 example_heap = Ok (c1, h1) ∧ holds h1 c1 U ∧
    combine_utxos 4 2 example_heap = Ok (c2, h2) ∧ holds h2 c2 U.
Proof.
  destruct (set_algebra_symmetric example_heap 2 4 _ _
              example_holds_2 example_holds_4)
    as (c1 & h1 & c2 & h2 & _ & _ & _ & _ & _ & _ & _ & _ & U & _
        & H1 & H2 & H3 & H4 & _).
  exists c1, h1, c2, h2, U. repeat split; assumption.
Defined.

(** X11 (the result is independent of its inputs).  After
    [C = A.combine_utxos(B)], adding to [C] a triple whose integers have at
    most 4300 digits changes [C] only: [A] and [B] still hold what they
    held. *)
Theorem combined_registry_is_independent
    (h : heap) (a b : addr) (X Y : gset UTXO)
    (tx_id : string) (vout_index amt : Z) :
  printable vout_index → printable amt →
  holds h a X → holds h b Y →
  ∃ c h1 h2,
    combine_utxos a b h = Ok (c, h1) ∧
    add_utxo c tx_id vout_index amt h1 = Ok ((), h2) ∧
    holds h2 c ({[(tx_id, vout_index, amt)]} ∪ (X ∪ Y)) ∧
    holds h2 a X ∧ holds h2 b Y ∧
    ∀ l o, h !! l = Some o → h2 !! l = Some o.
Proof.
  intros Hpv Hpa [sa Ha] [sb Hb].
  destruct (combine_utxos_run h a b sa sb X Y Ha Hb)
    as (c & h1 & Hc & Hnew & (u & Hu & Hcu) & Hframe).
  exists c, h1. eexists. split; [exact Hc|].
  split; [exact (add_utxo_run _ _ _ _ _ _ _ Hpv Hpa Hcu)|].
  assert (Hlive : ∀ l o, h !! l = Some o →
            <[u := SetObj ({[(tx_id, vout_index, amt)]} ∪ (X ∪ Y))]> h1 !! l
            = Some o).
  { intros l o Hl. rewrite lookup_insert_ne by congruence.
    apply Hframe. exact Hl. }
  split; [exists u; eapply holds_at_write; exact Hcu|].
  destruct Ha as [Ha Hsa], Hb as [Hb Hsb].
  split; [exists sa; split; apply Hlive; assumption|].
  split; [exists sb; split; apply Hlive; assumption|exact Hlive].
Qed.

Lemma combined_registry_is_independent_witness :
  ∃ c h1 h2,
    combine_utxos 2 4 example_heap = Ok (c, h1) ∧
    add_utxo c "c" 2 7 h1 = Ok ((), h2) ∧
    holds h2 2 ({[utxo_a]} ∪ {[utxo_b]}) ∧ holds h2 4 {[utxo_b]}.
Proof.
  destruct (combined_registry_is_independent example_heap 2 4 _ _ "c" 2 7
              (printable_u64 2 eq_refl) (printable_u64 7 eq_refl)
              example_holds_2 example_holds_4)
    as (c & h1 & h2 & H1 & H2 & _ & H3 & H4 & _).
  exists c, h1, h2. repeat split; assumption.
Defined.

Section NewRegistry.

Variable iter : gset UTXO → list UTXO.
Hypothesis iter_perm : ∀ X, iter X ≡ₚ elements X.

(** X12 (construction).  [UTXOSet()] never raises and returns a registry
    that did not exist before, with count 0 and balance 0, leaving existing
    objects unchanged.  Two registries constructed one after the other own
    different set objects: adding a triple (with integers of at most 4300
    digits) to the second leaves the first empty. *)
Theorem new_registries_are_empty_and_separate
    (h : heap) (tx_id : string) (vout_index amt : Z) :
  printable vout_index → printable amt →
  ∃ r1 h1 r2 h2 h3,
    UTXOSet_new h = Ok (r1, h1) ∧ h !! r1 = None ∧
    get_total_utxo_count r1 h1 = Ok (0, h1) ∧
    get_balance iter r1 h1 = Ok (0, h1) ∧
    (∀ l o, h !! l = Some o → h1 !! l = Some o) ∧
    UTXOSet_new h1 = Ok (r2, h2) ∧ r2 ≠ r1 ∧
    add_utxo r2 tx_id vout_index amt h2 = Ok ((), h3) ∧
    holds h3 r2 {[(tx_id, vout_index, amt)]} ∧
    holds h3 r1 ∅.
Proof.
  intros Hpv Hpa.
  assert (Hnew : ∀ h0 : heap, ∃ r s h',
            UTXOSet_new h0 = Ok (r, h') ∧ h0 !! r = None ∧ h0 !! s = None ∧
            holds_at h' r s ∅ ∧ h0 ⊆ h').
  { intros h0. rewrite UTXOSet_new_run.
    set (s := fresh (dom h0)). set (h' := <[s := SetObj ∅]> h0).
    set (r := fresh (dom h')).
    assert (Hs : h0 !! s = None) by apply fresh_not_live.
    assert (Hr : h' !! r = None) by apply fresh_not_live.
    assert (H01 : h0 ⊆ h') by apply insert_subseteq, Hs.
    assert (Hsr : r ≠ s).
    { intros E. rewrite E in Hr. unfold h' in Hr.
      rewrite lookup_insert_eq in Hr. discriminate. }
    exists r, s, (<[r := UTXOSetObj s]> h'). split; [reflexivity|].
    split.
    { destruct (h0 !! r) as [o|] eqn:E; [|reflexivity].
      pose proof (lookup_weaken _ _ _ _ E H01). congruence. }
    split; [exact Hs|]. split.
    - split; [apply lookup_insert_eq|].
      rewrite lookup_insert_ne by exact Hsr. apply lookup_insert_eq.
    - etrans; [exact H01|]. apply insert_subseteq, Hr. }
  destruct (Hnew h) as (r1 & s1 & h1 & R1 & N1 & _ & H1 & F1).
  destruct (Hnew h1) as (r2 & s2 & h2 & R2 & N2 & Ns2 & H2 & F2).
  assert (H12 : holds_at h2 r1 s1 ∅).
  { destruct H1 as [Hr Hs]. split; eapply lookup_weaken; eassumption. }
  assert (Hs12 : s1 ≠ s2).
  { intros ->. destruct H1 as [_ Hs]. congruence. }
  exists r1, h1, r2, h2. eexists.
  split; [exact R1|]. split; [exact N1|].
  split; [apply (get_total_utxo_count_run _ _ _ _ H1)|].
  split.
  { rewrite (get_balance_run iter iter_perm _ _ _ _ H1), elements_empty.
    reflexivity. }
  split; [intros l o Hl; eapply lookup_weaken; eassumption|].
  split; [exact R2|]. split.
  { intros ->. destruct H1 as [Hr _]. congruence. }
  split; [exact (add_utxo_run _ _ _ _ _ _ _ Hpv Hpa H2)|]. split.
  - exists s2.
    pose proof (holds_at_write _ _ _ _
                  ({[(tx_id, vout_index, amt)]} ∪ ∅) H2) as Hw.
    rewrite (right_id_L ∅ (∪)) in Hw at 2. exact Hw.
  - exists s1. destruct H12 as [Hr Hs].
    assert (s2 ≠ r1) by (intros ->; destruct H1 as [Hr1 _]; congruence).
    split; rewrite lookup_insert_ne by congruence; assumption.
Qed.

End NewRegistry.

(** * Further properties of the codec *)

Section CodecMore.

Lemma encode_Ok_inv (value : PyVal) (bs : list byte) :
  encode value = Ok bs →
  ∃ v, int_value value = Some v ∧ 0 ≤ v ≤ 0xFFFFFFFFFFFFFFFF ∧ bs = layout v.
Proof.
  intros H. destruct (int_value value) as [v|] eqn:Hi.
  - exists v. split; [reflexivity|].
    destruct (decide (0 ≤ v ≤ 0xFFFFFFFFFFFFFFFF)) as [Hv|Hv].
    + rewrite (encode_int _ _ Hi Hv) in H. split; [exact Hv|congruence].
    + exfalso. unfold encode in H. rewrite Hi in H.
      destruct (Z.leb_spec 0 v); destruct (Z.leb_spec v 0xFFFFFFFFFFFFFFFF);
        cbn [andb negb] in H; try lia; discriminate.
  - unfold encode in H. rewrite Hi in H. discriminate.
Qed.

Lemma from_bytes_range (l : list byte) :
  0 ≤ from_bytes l < 256 ^ Z.of_nat (length l).
Proof.
  induction l as [|b l IH]; [cbn; lia|].
  cbn [from_bytes length]. rewrite Nat2Z.inj_succ, Z.pow_succ_r by lia.
  pose proof (byte_to_Z_range b). nia.
Qed.

Lemma from_bytes_inj (l l' : list byte) :
  length l = length l' → from_bytes l = from_bytes l' → l = l'.
Proof.
  revert l'. induction l as [|b l IH]; intros [|b' l'] Hlen Hv;
    try discriminate; [reflexivity|].
  cbn [from_bytes] in Hv. injection Hlen as Hlen.
  pose proof (byte_to_Z_range b). pose proof (byte_to_Z_range b').
  assert (byte_to_Z b = byte_to_Z b' ∧ from_bytes l = from_bytes l')
    as [Hb Hl] by lia.
  f_equal; [apply byte_to_Z_inj; exact Hb|apply IH; assumption].
Qed.

Lemma slice_tail (b0 : byte) (tail : list byte) (k : nat) :
  length tail = k → slice (b0 :: tail) 1 (S k) = tail.
Proof.
  intros <-. unfold slice. cbn [skipn]. change (drop 0 tail) with tail.
  rewrite Nat.sub_succ, Nat.sub_0_r, firstn_all. reflexivity.
Qed.

End CodecMore.

Lemma new_registries_are_empty_and_separate_witness :
  ∃ r1 h1 r2 h2 h3,
    UTXOSet_new ∅ = Ok (r1, h1) ∧
    get_total_utxo_count r1 h1 = Ok (0, h1) ∧
    UTXOSet_new h1 = Ok (r2, h2) ∧ r2 ≠ r1 ∧
    add_utxo r2 "a" 0 500 h2 = Ok ((), h3) ∧
    holds h3 r1 ∅.
Proof.
  destruct (new_registries_are_empty_and_separate elements
              (λ X, reflexivity _) ∅ "a" 0 500
              (printable_u64 0 eq_refl) (printable_u64 500 eq_refl))
    as (r1 & h1 & r2 & h2 & h3 & H1 & _ & H2 & _ & _ & H3 & H4 & H5 & _ & H6).
  exists r1, h1, r2, h2, h3. repeat split; assumption.
Defined.

(** X13 (framing).  Whatever [encode] returns can be read back from the
    front of a longer byte string: if [encode value] returns [bs], then
    [value] is an integer [v] in [0 .. 2^64 - 1] and, for every [rest],
    [decode (bs ++ rest)] returns [v] and the length of [bs]. *)
Theorem decode_reads_encoding_at_front
    (value : PyVal) (bs rest : list byte) :
  encode value = Ok bs →
  ∃ v, int_value value = Some v ∧ 0 ≤ v ≤ 2 ^ 64 - 1 ∧
       decode (bs ++ rest) = Ok (v, Z.of_nat (length bs)).
Proof.
  intros He. destruct (encode_Ok_inv _ _ He) as (v & Hi & Hv & ->).
  exists v. split; [exact Hi|]. split; [exact Hv|].
  apply decode_app, decode_layout. exact Hv.
Qed.

Lemma decode_reads_encoding_at_front_witness :
  ∃ v, int_value (PyInt 300) = Some v ∧ 0 ≤ v ≤ 2 ^ 64 - 1 ∧
       decode ([xfd; x2c; x01] ++ [xaa; xbb])
       = Ok (v, Z.of_nat (length [xfd; x2c; x01])).
Proof.
  apply (decode_reads_encoding_at_front (PyInt 300) [xfd; x2c; x01] [xaa; xbb]).
  reflexivity.
Defined.

(** X14 (prefix-free).  No encoding is a proper prefix of another: if the
    bytes returned for one value are a prefix of the bytes returned for
    another, the two values are the same integer and the two byte strings
    are equal.  In particular [encode] is injective on integers. *)
Theorem encode_prefix_free
    (value value' : PyVal) (bs bs' : list byte) :
  encode value = Ok bs → encode value' = Ok bs' →
  bs `prefix_of` bs' →
  int_value value = int_value value' ∧ bs = bs'.
Proof.
  intros He He' [k Hk].
  destruct (encode_Ok_inv _ _ He) as (v & Hi & Hv & ->).
  destruct (encode_Ok_inv _ _ He') as (v' & Hi' & Hv' & ->).
  pose proof (decode_app _ k _ (decode_layout v Hv)) as Hd.
  rewrite <- Hk, (decode_layout v' Hv') in Hd.
  injection Hd as Hvv _. subst v'. split; [congruence|reflexivity].
Qed.

Lemma encode_prefix_free_witness :
  int_value (PyBool true) = int_value (PyInt 1) ∧ [x01] = [x01].
Proof.
  apply (encode_prefix_free (PyBool true) (PyInt 1) [x01] [x01]);
    [reflexivity|reflexivity|].
  exists []. reflexivity.
Defined.

(** X15 (decoded values can be re-encoded).  When [decode] succeeds it
    consumed 1, 3, 5 or 9 bytes, at most the bytes available, and the value
    lies in [0 .. 2^64 - 1] and fits the width the prefix announces; so
    [encode] accepts the value, and its encoding is never longer than what
    was consumed. *)
Theorem decode_value_bounds (data : list byte) (v consumed : Z) :
  decode data = Ok (v, consumed) →
  (consumed = 1 ∨ consumed = 3 ∨ consumed = 5 ∨ consumed = 9) ∧
  consumed ≤ Z.of_nat (length data) ∧
  0 ≤ v < (if consumed =? 1 then 253 else 256 ^ (consumed - 1)) ∧
  ∃ bs, encode (PyInt v) = Ok bs ∧ Z.of_nat (length bs) ≤ consumed.
Proof.
  intros Hd.
  destruct (decode_Ok_inv _ _ _ Hd) as (b0 & k & Hh & -> & Hdl & Hle & Hv).
  pose proof (byte_to_Z_range b0) as Hr.
  assert (Hb : 0 ≤ v < (if Z.of_nat k =? 1 then 253
                        else 256 ^ (Z.of_nat k - 1))).
  { unfold declared_length, tag_length in Hdl.
    destruct (Z.ltb_spec (byte_to_Z b0) 0xFD) as [Hs|Hs].
    - subst v. destruct (Z.eqb_spec (Z.of_nat k) 1); [lia|]. zcases; lia.
    - destruct (Z.eqb_spec (Z.of_nat k) 1) as [E|E]; [zcases; lia|].
      pose proof (from_bytes_range (slice data 1 k)) as Hf.
      assert (Hl : length (slice data 1 k) = (k - 1)%nat).
      { unfold slice. rewrite length_take, length_drop. lia. }
      rewrite Hl in Hf. rewrite <- Hv in Hf.
      replace (Z.of_nat (k - 1)) with (Z.of_nat k - 1) in Hf by lia.
      exact Hf. }
  assert (Hk : Z.of_nat k = 1 ∨ Z.of_nat k = 3 ∨ Z.of_nat k = 5
               ∨ Z.of_nat k = 9).
  { unfold declared_length, tag_length in Hdl. zcases; lia. }
  split; [exact Hk|]. split; [lia|]. split; [exact Hb|].
  assert (Hv64 : 0 ≤ v ≤ 0xFFFFFFFFFFFFFFFF).
  { destruct Hk as [E|[E|[E|E]]]; rewrite E in Hb; cbn in Hb; lia. }
  exists (layout v). split; [apply encode_int; [reflexivity|exact Hv64]|].
  rewrite length_layout.
  destruct Hk as [E|[E|[E|E]]]; rewrite E in Hb |- *; cbn in Hb;
    zcases; lia.
Qed.

Lemma decode_value_bounds_witness :
  ∃ bs, encode (PyInt 5) = Ok bs ∧ Z.of_nat (length bs) ≤ 3.
Proof.
  destruct (decode_value_bounds [xfd; x05; x00] 5 3) as (_ & _ & _ & H).
  - reflexivity.
  - exact H.
Defined.

(** X16 (canonical inputs re-encode to themselves).  When [decode] succeeds
    on [data] with value [v], the encoding of [v] equals the consumed bytes
    of [data] exactly when it has as many bytes as were consumed, that is
    when [data] used the minimal prefix for [v]. *)
Theorem reencode_equals_consumed_iff_minimal
    (data bs : list byte) (v consumed : Z) :
  decode data = Ok (v, consumed) →
  encode (PyInt v) = Ok bs →
  (bs = take (Z.to_nat consumed) data ↔ Z.of_nat (length bs) = consumed).
Proof.
  intros Hd He.
  destruct (decode_Ok_inv _ _ _ Hd) as (b0 & k & Hh & -> & Hdl & Hle & Hv).
  rewrite Nat2Z.id. split.
  { intros ->. rewrite length_take. lia. }
  intros Hlen. apply Nat2Z.inj in Hlen.
  destruct (encode_Ok_inv _ _ He) as (v' & [= <-] & Hv64 & ->).
  pose proof (decode_layout v Hv64) as Hdl'. rewrite Hlen in Hdl'.
  destruct (decode_Ok_inv _ _ _ Hdl')
    as (c0 & k' & Hh' & Hk' & Hdc & _ & Hv').
  apply Nat2Z.inj in Hk'. subst k'.
  destruct data as [|b rest]; [discriminate|]. injection Hh as ->.
  destruct (layout v) as [|c tl] eqn:El; [discriminate|]. injection Hh' as ->.
  pose proof (byte_to_Z_range b0) as Hr. pose proof (byte_to_Z_range c0) as Hr'.
  unfold declared_length, tag_length in Hdl, Hdc.
  destruct k as [|k]; [lia|]. cbn [take]. cbn [length] in Hlen, Hle.
  assert (Htl : length tl = k) by lia.
  assert (Hrk : length (take k rest) = k) by (rewrite length_take; lia).
  destruct (Z.ltb_spec (byte_to_Z b0) 0xFD) as [Hs|Hs];
    destruct (Z.ltb_spec (byte_to_Z c0) 0xFD) as [Hs'|Hs'].
  - assert (k = 0%nat) as -> by (zcases; lia).
    destruct tl; [|discriminate]. rewrite take_0.
    f_equal. apply byte_to_Z_inj. congruence.
  - exfalso. zcases; lia.
  - exfalso. zcases; lia.
  - assert (c0 = b0) as -> by (apply byte_to_Z_inj; zcases; lia).
    f_equal. apply from_bytes_inj; [lia|].
    rewrite (slice_tail _ _ _ Htl) in Hv'.
    rewrite (slice_take (b0 :: rest)) in Hv. cbn [take] in Hv.
    rewrite (slice_tail _ _ _ Hrk) in Hv. congruence.
Qed.

Lemma reencode_equals_consumed_iff_minimal_witness :
  [x05] = take (Z.to_nat 3) [xfd; x05; x00] ↔ Z.of_nat (length [x05]) = 3.
Proof.
  apply (reencode_equals_consumed_iff_minimal [xfd; x05; x00] [x05] 5 3);
    reflexivity.
Defined.

(** * Properties of the transaction container *)

Section Summarize.

Variable min_value : Z.







End Summarize.


(** Beyond the conversion limit the loop raises at the first output whose
    value cannot be printed. *)
Lemma summarize_outputs_raises
    (fuel : nat) (min_value : Z) (z : Z) (script : string)
    (rest : list (PyVal * string)) (v l : Z) :
  ¬ printable z →
  ∃ e, summarize_outputs (S fuel) min_value
         (mkTransactionData v [] ((PyInt z, script) :: rest) l ∅)
       = Some (Err e).
Proof.
  intros Hnp. destruct (str_int_Err z Hnp) as [e He]. exists e.
  unfold summarize_outputs. cbn [outputs summarize_loop length].
  change (0 <? S (length rest))%nat with true. cbv iota.
  change (((PyInt z, script) :: rest) !! 0%nat) with (Some (PyInt z, script)).
  cbv iota. unfold isinstance_int. cbn [int_value negb orb str_val].
  rewrite He.
  destruct (z <? 0); [reflexivity|]. destruct (z <? min_value); reflexivity.
Qed.





Section InputDetails.

Lemma fresh_not_live_dict (d : dict_heap) : d !! fresh (dom d) = None.
Proof. apply not_elem_of_dom, is_fresh. Qed.





End InputDetails.


(** X20 ([add_input]).  [add_input] creates a new dictionary with exactly
    the keys [prev_txid], [prev_vout], [script_sig] and [sequence], bound to
    its four arguments, and appends a reference to it after the existing
    inputs; the existing dictionaries are unchanged, the input count of the
    header grows by one and the other header fields stay. *)
Theorem add_input_appends_new_dict
    (tx_id : string) (vout_index : Z) (script_sig : string) (sequence : Z)
    (d : dict_heap) (self : TransactionData) :
  tx_wf d self →
  ∃ a input_data d' self',
    add_input tx_id vout_index script_sig sequence d self = (d', self') ∧
    d !! a = None ∧ d' !! a = Some input_data ∧
    inputs self' = inputs self ++ [a] ∧
    dom input_data
    = {["prev_txid"; "prev_vout"; "script_sig"; "sequence"]}%string ∧
    input_data !! "prev_txid"%string = Some (PyStr tx_id) ∧
    input_data !! "prev_vout"%string = Some (PyInt vout_index) ∧
    input_data !! "script_sig"%string = Some (PyStr script_sig) ∧
    input_data !! "sequence"%string = Some (PyInt sequence) ∧
    (∀ l x, d !! l = Some x → d' !! l = Some x) ∧
    tx_wf d' self' ∧
    get_transaction_header self'
    = (version self, Z.of_nat (length (inputs self)) + 1,
       Z.of_nat (length (outputs self)), lock_time self).
Proof.
  intros Hwf. unfold add_input.
  set (a := fresh (dom d)).
  set (input_data := input_dict tx_id vout_index script_sig sequence).
  assert (Ha : d !! a = None) by apply fresh_not_live_dict.
  assert (Hsub : d ⊆ <[a := input_data]> d) by apply insert_subseteq, Ha.
  exists a, input_data. eexists _, _. split; [reflexivity|].
  split; [exact Ha|]. split; [apply lookup_insert_eq|].
  split; [reflexivity|]. split.
  { unfold input_data, input_dict. rewrite !dom_insert_L, dom_empty_L.
    set_solver. }
  do 4 (split; [reflexivity|]).
  split; [intros l x Hl; eapply lookup_weaken; eassumption|]. split.
  - intros b Hb. cbn [inputs] in Hb. apply elem_of_app in Hb as [Hb|Hb].
    + destruct (Hwf b Hb) as [x Hx]. exists x.
      eapply lookup_weaken; eassumption.
    + apply list_elem_of_singleton in Hb as ->. exists input_data.
      apply lookup_insert_eq.
  - unfold get_transaction_header. cbn [version inputs outputs lock_time].
    rewrite length_app. cbn [length]. repeat f_equal. lia.
Qed.



Lemma example_tx_wf : tx_wf example_dicts example_tx.
Proof.
  intros a Ha. apply list_elem_of_singleton in Ha as ->.
  eexists. apply lookup_insert_eq.
Qed.



Lemma add_input_appends_new_dict_witness :
  ∃ a input_data d' self',
    add_input "cd" 1 "sig2" 4294967295 example_dicts example_tx = (d', self') ∧
    example_dicts !! a = None ∧ d' !! a = Some input_data ∧
    inputs self' = [1%positive; a] ∧
    input_data !! "prev_txid"%string = Some (PyStr "cd").
Proof.
  destruct (add_input_appends_new_dict "cd" 1 "sig2" 4294967295
              example_dicts example_tx example_tx_wf)
    as (a & x & d' & self' & H1 & H2 & H3 & H4 & _ & H5 & _).
  exists a, x, d', self'. repeat split; assumption.
Defined.


(** X22 (metadata).  After [update_metadata(new_data)],
    [get_metadata_value(key, default)] returns the value [new_data] binds
    to [key] if there is one, and otherwise what it returned before the
    update, which is [default] when the key was never set; a newly
    constructed transaction returns [default] for every key.  The update
    changes neither the header nor the inputs and outputs. *)
Theorem metadata_update_then_get
    (new_data : pydict) (key : string) (default : PyVal)
    (self : TransactionData) :
  get_metadata_value key default (update_metadata new_data self)
  = match new_data !! key with
    | Some value => value
    | None => get_metadata_value key default self
    end ∧
  (∀ v l, get_metadata_value key default (TransactionData_init v l)
          = default) ∧
  get_transaction_header (update_metadata new_data self)
  = get_transaction_header self ∧
  inputs (update_metadata new_data self) = inputs self ∧
  outputs (update_metadata new_data self) = outputs self.
Proof.
  split; [|repeat split].
  unfold get_metadata_value, update_metadata. cbn [metadata].
  destruct (new_data !! key) as [v|] eqn:E.
  - rewrite (lookup_union_Some_l _ _ _ _ E). reflexivity.
  - rewrite lookup_union_r by exact E. reflexivity.
Qed.

(** Header bookkeeping.  [set_transaction_header(version, num_inputs,
    num_outputs, lock_time)] sets [version] and [lock_time] only: the header
    read back reports the actual numbers of inputs and outputs, whatever
    [num_inputs] and [num_outputs] were, and inputs, outputs and metadata are
    unchanged.  [add_output] appends its pair after the existing outputs and
    raises the output count by one. *)
Theorem header_counts_come_from_the_lists
    (v num_inputs num_outputs l : Z) (value_satoshi : PyVal)
    (script_pubkey : string) (self : TransactionData) :
  get_transaction_header
    (set_transaction_header v num_inputs num_outputs l self)
  = (v, Z.of_nat (length (inputs self)), Z.of_nat (length (outputs self)), l) ∧
  inputs (set_transaction_header v num_inputs num_outputs l self)
  = inputs self ∧
  outputs (set_transaction_header v num_inputs num_outputs l self)
  = outputs self ∧
  metadata (set_transaction_header v num_inputs num_outputs l self)
  = metadata self ∧
  outputs (add_output value_satoshi script_pubkey self)
  = outputs self ++ [(value_satoshi, script_pubkey)] ∧
  get_transaction_header (add_output value_satoshi script_pubkey self)
  = (version self, Z.of_nat (length (inputs self)),
     Z.of_nat (length (outputs self)) + 1, lock_time self).
Proof.
  repeat split.
  unfold get_transaction_header, add_output.
  cbn [version inputs outputs lock_time]. rewrite length_app. cbn [length].
  repeat f_equal. lia.
Qed.




(** * Properties of the block-header generator *)

Section GeneratorProps.

Variables (prev_block_hash merkle_root : string).
Variables (timestamp bits max_attempts : Z).

Let header (n : Z) : pydict :=
  header_dict prev_block_hash merkle_root timestamp bits n.
Let next := gen_next prev_block_hash merkle_root timestamp bits max_attempts.
Let drain := gen_drain prev_block_hash merkle_root timestamp bits max_attempts.

Lemma result_bind_Ok {A B : Type} (a : A) (k : A → result B) :
  (Ok a ≫= k) = k a.
Proof. reflexivity. Qed.

(** A step whose integers are all within the conversion limit. *)
Lemma gen_next_printable (n a : Z) :
  printable timestamp → printable bits →
  printable n → printable (a + 1) →
  next (mkGenState n a)
  = if a <? max_attempts
    then Ok (Some (header n, mkGenState (n + 1) (a + 1)))
    else Ok None.
Proof.
  intros Ht Hb Hn Ha. unfold next, gen_next. cbn [attempts nonce].
  assert (H1 : str_int 1 = Ok ()) by (apply str_int_ok, printable_u64; reflexivity).
  rewrite (str_int_ok _ Ha).
  assert (Hprog : (if (a + 1) mod 100 =? 0 then Ok () else Ok ())
                  = (Ok () : result unit))
    by (destruct ((a + 1) mod 100 =? 0); reflexivity).
  rewrite Hprog, result_bind_Ok.
  destruct (a <? max_attempts); [|reflexivity].
  rewrite H1, (str_int_ok _ Ht), (str_int_ok _ Hb), (str_int_ok _ Hn).
  reflexivity.
Qed.

(** Whatever a step yields: the header for the current nonce, while
    attempts remain. *)
Lemma gen_next_yield (st st' : gen_state) (h : pydict) :
  next st = Ok (Some (h, st')) →
  attempts st < max_attempts ∧ h = header (nonce st) ∧
  st' = mkGenState (nonce st + 1) (attempts st + 1).
Proof.
  unfold next, gen_next.
  destruct (if (attempts st + 1) mod 100 =? 0
            then str_int (attempts st + 1) else Ok ()) as [[]|e];
    [|discriminate].
  rewrite result_bind_Ok.
  destruct (Z.ltb_spec (attempts st) max_attempts); [|discriminate].
  destruct (str_int 1) as [[]|e]; [|discriminate]. rewrite result_bind_Ok.
  destruct (str_int timestamp) as [[]|e]; [|discriminate].
  rewrite result_bind_Ok.
  destruct (str_int bits) as [[]|e]; [|discriminate]. rewrite result_bind_Ok.
  destruct (str_int (nonce st)) as [[]|e]; [|discriminate].
  rewrite result_bind_Ok.
  destruct (str_int (attempts st + 1)) as [[]|e]; [|discriminate].
  rewrite result_bind_Ok.
  intros [= <- <-]. auto.
Qed.

Lemma gen_drain_from (fuel : nat) :
  printable timestamp → printable bits →
  ∀ n a : Z,
    0 ≤ a →
    Z.abs n + Z.max 0 (max_attempts - a) + 1 < 10 ^ max_str_digits →
    a + Z.max 0 (max_attempts - a) + 1 < 10 ^ max_str_digits →
    (Z.to_nat (max_attempts - a) < fuel)%nat →
    drain fuel (mkGenState n a)
    = ((λ i : nat, header (n + Z.of_nat i))
         <$> seq 0 (Z.to_nat (max_attempts - a)),
       Some (Ok ())).
Proof.
  intros Ht Hb.
  induction fuel as [|fuel IH]; intros n a Ha Hn Hb' Hf; [lia|].
  unfold drain in *. cbn [gen_drain].
  fold next. rewrite gen_next_printable;
    [|assumption|assumption|unfold printable; lia|unfold printable; lia].
  destruct (Z.ltb_spec a max_attempts) as [Hlt|Hge].
  - rewrite IH by lia.
    replace (Z.to_nat (max_attempts - a))
      with (S (Z.to_nat (max_attempts - (a + 1)))) by lia.
    cbn [seq fmap list_fmap]. rewrite Z.add_0_r. do 2 f_equal.
    rewrite <- seq_shift, <- list_fmap_compose.
    apply list_fmap_ext. intros i x _. cbn. unfold header. f_equal. lia.
  - replace (Z.to_nat (max_attempts - a)) with 0%nat by lia. reflexivity.
Qed.

(** The headers yielded by any iteration, however it ends. *)
Lemma gen_drain_yields (fuel : nat) :
  ∀ n a : Z,
    ∃ k : nat,
      (drain fuel (mkGenState n a)).1
      = (λ i : nat, header (n + Z.of_nat i)) <$> seq 0 k ∧
      Z.of_nat k ≤ Z.max 0 (max_attempts - a).
Proof.
  induction fuel as [|fuel IH]; intros n a.
  { exists 0%nat. split; [reflexivity|lia]. }
  unfold drain in *. cbn [gen_drain]. fold next.
  destruct (next (mkGenState n a)) as [[[h st']|]|e] eqn:E.
  - apply gen_next_yield in E as (Hlt & -> & ->). cbn [attempts nonce] in *.
    destruct (IH (n + 1) (a + 1)) as (k & Hk & Hle).
    destruct (gen_drain _ _ _ _ _ fuel _) as [rest outcome].
    cbn [fst] in *. exists (S k). split; [|lia].
    cbn [seq fmap list_fmap]. rewrite Z.add_0_r, Hk. f_equal.
    rewrite <- seq_shift, <- list_fmap_compose.
    apply list_fmap_ext. intros i x _. cbn. unfold header. f_equal. lia.
  - exists 0%nat. split; [reflexivity|lia].
  - exists 0%nat. split; [reflexivity|lia].
Qed.

Lemma header_nonce (n : Z) : header n !! "nonce"%string = Some (PyInt n).
Proof. reflexivity. Qed.

End GeneratorProps.

(** X24 (the generator is finite).  When [timestamp], [bits], every nonce
    from [start_nonce] on and every attempt number up to
    [max_attempts + 1] have at most 4300 digits, iterating over
    [generate_block_headers] finishes without raising after
    [max_attempts] headers (none when [max_attempts <= 0]); the [i]-th
    header yielded, counting from 0, is the dictionary with the given
    fields and nonce [start_nonce + i]. *)
Theorem generator_yields_max_attempts_headers
    (prev_block_hash merkle_root : string)
    (timestamp bits start_nonce max_attempts : Z) (fuel : nat) :
  printable timestamp → printable bits →
  Z.abs start_nonce + Z.max 0 max_attempts + 1 < 10 ^ max_str_digits →
  (Z.to_nat max_attempts < fuel)%nat →
  ∃ headers,
    gen_drain prev_block_hash merkle_root timestamp bits max_attempts fuel
      (generate_block_headers start_nonce) = (headers, Some (Ok ())) ∧
    length headers = Z.to_nat max_attempts ∧
    (max_attempts ≤ 0 → headers = []) ∧
    ∀ i : nat, (i < Z.to_nat max_attempts)%nat →
      headers !! i
      = Some (header_dict prev_block_hash merkle_root timestamp bits
                (start_nonce + Z.of_nat i)).
Proof.
  intros Ht Hb Hn Hf. unfold generate_block_headers.
  rewrite gen_drain_from; try assumption; rewrite ?Z.sub_0_r;
    try assumption; try lia.
  eexists. split; [reflexivity|].
  split; [rewrite length_fmap, length_seq; reflexivity|]. split.
  - intros Hle. replace (Z.to_nat max_attempts) with 0%nat by lia.
    reflexivity.
  - intros i Hi. rewrite list_lookup_fmap, lookup_seq_lt by exact Hi.
    reflexivity.
Qed.

Lemma generator_yields_max_attempts_headers_witness :
  ∃ headers,
    gen_drain "00ab" "ffee" 1700000000 486604799 3 4
      (generate_block_headers 7) = (headers, Some (Ok ())) ∧
    length headers = 3%nat ∧
    headers !! 2%nat
    = Some (header_dict "00ab" "ffee" 1700000000 486604799 9).
Proof.
  destruct (generator_yields_max_attempts_headers
              "00ab" "ffee" 1700000000 486604799 7 3 4)
    as (hs & H1 & H2 & _ & H3).
  - apply printable_u64. reflexivity.
  - apply printable_u64. reflexivity.
  - reflexivity.
  - cbn. lia.
  - exists hs. split; [exact H1|]. split; [exact H2|].
    apply (H3 2%nat). cbn. lia.
Defined.

(** X25 (what is yielded).  Every header yielded, in any iteration over the
    generator and however that iteration ends, has [version] 1, the
    [prev_block_hash], [merkle_root], [timestamp] and [bits] passed to the
    generator, and a nonce in [start_nonce .. start_nonce + max_attempts -
    1]; no two yielded headers are equal, because their nonces differ. *)
Theorem yielded_headers_fields_and_distinct_nonces
    (prev_block_hash merkle_root : string)
    (timestamp bits start_nonce max_attempts : Z) (fuel : nat)
    (headers : list pydict) (outcome : option (result unit)) :
  gen_drain prev_block_hash merkle_root timestamp bits max_attempts fuel
    (generate_block_headers start_nonce) = (headers, outcome) →
  NoDup headers ∧
  ∀ h, h ∈ headers →
    h !! "version"%string = Some (PyInt 1) ∧
    h !! "prev_block_hash"%string = Some (PyStr prev_block_hash) ∧
    h !! "merkle_root"%string = Some (PyStr merkle_root) ∧
    h !! "timestamp"%string = Some (PyInt timestamp) ∧
    h !! "bits"%string = Some (PyInt bits) ∧
    ∃ n, h !! "nonce"%string = Some (PyInt n) ∧
         start_nonce ≤ n < start_nonce + max_attempts.
Proof.
  intros Hrun.
  destruct (gen_drain_yields prev_block_hash merkle_root timestamp bits
              max_attempts fuel start_nonce 0) as (k & Hk & Hle).
  unfold generate_block_headers in Hrun. rewrite Hrun in Hk.
  cbn [fst] in Hk. subst headers. split.
  - apply NoDup_fmap_2_strong; [|apply NoDup_seq].
    intros i j _ _ E.
    assert (En : header_dict prev_block_hash merkle_root timestamp bits
                   (start_nonce + Z.of_nat i) !! "nonce"%string
                 = header_dict prev_block_hash merkle_root timestamp bits
                     (start_nonce + Z.of_nat j) !! "nonce"%string)
      by (rewrite E; reflexivity).
    rewrite !header_nonce in En. injection En as En. lia.
  - intros h Hh. apply list_elem_of_fmap in Hh as (i & -> & Hi).
    apply elem_of_seq in Hi. do 5 (split; [reflexivity|]).
    eexists. split; [reflexivity|]. lia.
Qed.

Lemma yielded_headers_fields_and_distinct_nonces_witness :
  NoDup
    [header_dict "00ab" "ffee" 1700000000 486604799 7;
     header_dict "00ab" "ffee" 1700000000 486604799 8].
Proof.
  destruct (yielded_headers_fields_and_distinct_nonces
              "00ab" "ffee" 1700000000 486604799 7 2 3
              [header_dict "00ab" "ffee" 1700000000 486604799 7;
               header_dict "00ab" "ffee" 1700000000 486604799 8]
              (Some (Ok ())))
    as [H _].
  - reflexivity.
  - exact H.
Defined.
